(** * Live Santa Tracker: a shallow embedding of [src/app/app.py]

    The tracker polls an ISS telemetry endpoint, appends the position to
    three bounded module-level deques, splits the track into runs of equal
    visibility and builds a map figure plus four readouts.

    The embedding keeps the shape of the Python module:
    - Python values coming out of [resp.json()] are the inductive [pyval];
      floats are binary64 ([PrimFloat.float]);
    - raised exceptions are the [Raise] case of [res];
    - the module-level deques form the [state] threaded through
      [update_map];
    - the network, the clock and the image file are inputs ([world],
      [encoded_image]); library look-ups the module calls but does not
      define (string to float conversion, [str.upper], the pycountry table)
      are fields of [runtime];
    - the warnings printed by the fetch and the page layout have no part
      in what the callback returns and are left out. *)

From Stdlib Require Import ZArith List String Ascii Bool Lia Floats.
From Stdlib Require Import DecimalString.
Import ListNotations.
Open Scope string_scope.
Open Scope list_scope.

Set Implicit Arguments.

(** ** Exceptions and results *)

Inductive exn : Type :=
| Timeout                (* requests.Timeout *)
| ConnectionError        (* requests.ConnectionError *)
| HTTPError              (* requests.HTTPError *)
| JSONDecodeError        (* requests.JSONDecodeError *)
| OtherRequestException  (* any other subclass of requests.RequestException *)
| KeyError (key : string)
| IndexError
| TypeError
| ValueError
| AttributeError
| OverflowError
| PreventUpdate.         (* dash.exceptions.PreventUpdate *)

(** [isinstance(e, requests.RequestException)]: Timeout, ConnectionError,
    HTTPError and JSONDecodeError all derive from RequestException. *)
Definition is_RequestException (e : exn) : bool :=
  match e with
  | Timeout | ConnectionError | HTTPError | JSONDecodeError
  | OtherRequestException => true
  | _ => false
  end.

Inductive res (A : Type) : Type :=
| Ret (a : A)
| Raise (e : exn).
Arguments Ret {A} a.
Arguments Raise {A} e.

Definition bind {A B} (m : res A) (k : A -> res B) : res B :=
  match m with
  | Ret a => k a
  | Raise e => Raise e
  end.

(** [try: body except <caught>: handler] *)
Definition try_except {A} (body : res A) (caught : exn -> bool)
           (handler : exn -> res A) : res A :=
  match body with
  | Ret a => Ret a
  | Raise e => if caught e then handler e else Raise e
  end.

Declare Scope res_scope.
Delimit Scope res_scope with res.
Notation "x <- m ;; k" := (bind m (fun x => k))
  (at level 61, m at next level, right associativity) : res_scope.
Notation "m ;;; k" := (bind m (fun _ => k))
  (at level 61, right associativity) : res_scope.

(** ** Python values *)

#[warnings="-register-all"]
Inductive pyval : Type :=
| PNone
| PBool (b : bool)
| PInt (z : Z)
| PFloat (f : float)
| PStr (s : string)
| PList (xs : list pyval)
| PDict (kvs : list (string * pyval)).

Definition is_str (v : pyval) : bool :=
  match v with PStr _ => true | _ => false end.

(** First binding of a key in an association list (a parsed JSON object
    has each key once). *)
Fixpoint assoc {V} (k : string) (kvs : list (string * V)) : option V :=
  match kvs with
  | [] => None
  | (k', v) :: rest => if String.eqb k k' then Some v else assoc k rest
  end.

(** Exact comparison of an integer with a float, as Python does it. *)
Definition int_float_eqb (z : Z) (f : float) : bool :=
  match Prim2SF f with
  | S754_zero _ => Z.eqb z 0
  | S754_finite s m e =>
      let sm := if s then Z.neg m else Z.pos m in
      if (0 <=? e)%Z then Z.eqb z (sm * 2 ^ e)
      else Z.eqb (z * 2 ^ (- e)) sm
  | _ => false
  end.

Definition Z_of_bool (b : bool) : Z := if b then 1%Z else 0%Z.

(** Python [a == b] on JSON-shaped values held as plain Python objects.
    Booleans are integers; [nan] differs from itself; dictionaries compare
    as mappings.  Strings, lists and dictionaries are such objects
    wherever the module meets them; a number, a boolean or None read out
    of a frame is a numpy scalar or nan, whose comparison with a list is
    element-wise, so on such cells this is not the comparison of line 53.
    The properties of the segmenter are stated on string visibilities. *)
Fixpoint py_eq (a b : pyval) : bool :=
  match a, b with
  | PNone, PNone => true
  | PStr x, PStr y => String.eqb x y
  | PBool x, PBool y => Bool.eqb x y
  | PBool x, PInt y => Z.eqb (Z_of_bool x) y
  | PInt x, PBool y => Z.eqb x (Z_of_bool y)
  | PInt x, PInt y => Z.eqb x y
  | PBool x, PFloat y => int_float_eqb (Z_of_bool x) y
  | PFloat x, PBool y => int_float_eqb (Z_of_bool y) x
  | PInt x, PFloat y => int_float_eqb x y
  | PFloat x, PInt y => int_float_eqb y x
  | PFloat x, PFloat y => PrimFloat.eqb x y
  | PList xs, PList ys =>
      (fix go (xs ys : list pyval) : bool :=
         match xs, ys with
         | [], [] => true
         | x :: xs', y :: ys' => py_eq x y && go xs' ys'
         | _, _ => false
         end) xs ys
  | PDict xs, PDict ys =>
      Nat.eqb (List.length xs) (List.length ys) &&
      (fix go (xs : list (string * pyval)) : bool :=
         match xs with
         | [] => true
         | (k, v) :: xs' =>
             match assoc k ys with
             | Some w => py_eq v w
             | None => false
             end && go xs'
         end) xs
  | _, _ => false
  end.

(** Python [a != b], on the same values as [py_eq]. *)
Definition py_ne (a b : pyval) : bool := negb (py_eq a b).

(** Python truth value, as tested by [if code and ...]. *)
Definition py_truthy (v : pyval) : bool :=
  match v with
  | PNone => false
  | PBool b => b
  | PInt z => negb (Z.eqb z 0)
  | PFloat f => negb (PrimFloat.eqb f 0)
  | PStr s => negb (String.eqb s EmptyString)
  | PList xs => match xs with [] => false | _ => true end
  | PDict kvs => match kvs with [] => false | _ => true end
  end.

(** Lists and dictionaries cannot be dictionary keys. *)
Definition hashable (v : pyval) : bool :=
  match v with
  | PList _ | PDict _ => false
  | _ => true
  end.

(** ** Floats: conversion and the [.2f] format *)

(** [float(n)] for a Python integer: nearest binary64, OverflowError when
    the integer is too large. *)
Definition float_of_int (z : Z) : res float :=
  let f := SF2Prim (binary_normalize prec emax z 0 false) in
  if PrimFloat.is_infinity f then Raise OverflowError else Ret f.

Definition round_half_even (num den : Z) : Z :=
  let q := (num / den)%Z in
  let r := (num mod den)%Z in
  match (2 * r ?= den)%Z with
  | Lt => q
  | Gt => (q + 1)%Z
  | Eq => if Z.even q then q else (q + 1)%Z
  end.

Definition string_of_nat_Z (n : Z) : string :=
  NilZero.string_of_uint (N.to_uint (Z.to_N n)).

Definition digit (d : Z) : ascii := ascii_of_nat (48 + Z.to_nat d).

(** Hundredths to text: [1234] is printed [12.34]. *)
Definition fixed2 (negative : bool) (hundredths : Z) : string :=
  ((if negative then "-" else EmptyString)
   ++ string_of_nat_Z (hundredths / 100)
   ++ "."
   ++ String (digit ((hundredths / 10) mod 10))
        (String (digit (hundredths mod 10)) EmptyString))%string.

(** The magnitude [m * 2^e] in hundredths, rounded to nearest, ties to even
    (Python's float formatting rounds the exact binary value). *)
Definition hundredths_of (m : positive) (e : Z) : Z :=
  if (0 <=? e)%Z then (100 * Z.pos m * 2 ^ e)%Z
  else round_half_even (100 * Z.pos m) (2 ^ (- e)).

(** [f"{x:.2f}"] *)
Definition format_2f (x : float) : string :=
  match Prim2SF x with
  | S754_nan => "nan"
  | S754_infinity s => if s then "-inf" else "inf"
  | S754_zero s => fixed2 s 0
  | S754_finite s m e => fixed2 s (hundredths_of m e)
  end.

(** [float(v)] for a cell of the telemetry frame.  The text-to-float
    conversion of the runtime is an input ([float_of_str], [None] for text
    that is no number). *)
Definition py_float (float_of_str : string -> option float) (v : pyval)
  : res float :=
  match v with
  | PFloat f => Ret f
  | PInt z => float_of_int z
  | PBool b => float_of_int (Z_of_bool b)
  | PStr s =>
      match float_of_str s with
      | Some f => Ret f
      | None => Raise ValueError
      end
  | PNone | PList _ | PDict _ => Raise TypeError
  end.

(** ** [collections.deque] with a [maxlen] *)

Record deque (A : Type) : Type := mkDeque {
  items : list A;
  maxlen : nat
}.

Definition deque_new (A : Type) (n : nat) : deque A := mkDeque [] n.

(** [d.append(x)]: the item goes to the right end; when the deque is then
    longer than [maxlen], one item is popped from the left. *)
Definition deque_append {A} (d : deque A) (x : A) : deque A :=
  let l := items d ++ [x] in
  mkDeque (if (maxlen d <? List.length l)%nat then tl l else l) (maxlen d).

(** ** Module constants and state *)

Definition ISS_URL : string :=
  "https://api.wheretheiss.at/v1/satellites/25544".

Definition color_map : list (string * string) :=
  [("daylight", "white"); ("visible", "#FFFF00"); ("eclipsed", "red")].

Definition MAX_POINTS : nat := 1080.

(** The three module-level deques. *)
Record state : Type := mkState {
  TRACK_LAT : deque float;
  TRACK_LON : deque float;
  TRACK_VIS : deque pyval
}.

(** The state right after the module is loaded. *)
Definition initial_state : state :=
  mkState (deque_new float MAX_POINTS) (deque_new float MAX_POINTS)
          (deque_new pyval MAX_POINTS).

(** Lines 179-181 of [update_map]. *)
Definition track_append (st : state) (lat lon : float) (vis : pyval) : state :=
  mkState (deque_append (TRACK_LAT st) lat)
          (deque_append (TRACK_LON st) lon)
          (deque_append (TRACK_VIS st) vis).

(** ** Dictionary look-ups with string keys *)

(** [k in d]: TypeError on an unhashable key. *)
Definition dict_contains {V} (d : list (string * V)) (k : pyval) : res bool :=
  if hashable k then Ret (existsb (fun kv => py_eq k (PStr (fst kv))) d)
  else Raise TypeError.

Definition dict_find {V} (d : list (string * V)) (k : pyval) : option V :=
  option_map snd (find (fun kv => py_eq k (PStr (fst kv))) d).

(** [d[k]] *)
Definition dict_getitem {V} (d : list (string * V)) (k : pyval) : res V :=
  if hashable k then
    match dict_find d k with
    | Some v => Ret v
    | None => Raise (KeyError match k with PStr s => s | _ => EmptyString end)
    end
  else Raise TypeError.

(** [d.get(k, default)] *)
Definition dict_get {V} (d : list (string * V)) (k : pyval) (default : V)
  : res V :=
  if hashable k then
    Ret match dict_find d k with Some v => v | None => default end
  else Raise TypeError.

(** ** HTTP *)

(** The exceptions [requests.get] raises. *)
Inductive request_error : Type :=
| ReqTimeout           (* requests.Timeout *)
| ReqConnectionError   (* requests.ConnectionError *)
| ReqOther.            (* another RequestException, such as TooManyRedirects *)

Definition exn_of_request_error (e : request_error) : exn :=
  match e with
  | ReqTimeout => Timeout
  | ReqConnectionError => ConnectionError
  | ReqOther => OtherRequestException
  end.

(** What [requests.get] does: it raises, or returns a response with a
    status code and a body, which is JSON text ([Some]) or not ([None]). *)
Inductive http_result : Type :=
| RequestFails (e : request_error)
| Response (status_code : Z) (body : option pyval).

Record response : Type := mkResponse {
  status_code : Z;
  body : option pyval
}.

Definition requests_get (r : http_result) : res response :=
  match r with
  | RequestFails e => Raise (exn_of_request_error e)
  | Response c b => Ret (mkResponse c b)
  end.

(** [resp.raise_for_status()]: HTTPError for a 4xx or 5xx status. *)
Definition raise_for_status (resp : response) : res unit :=
  if ((400 <=? status_code resp) && (status_code resp <? 600))%Z
  then Raise HTTPError else Ret tt.

(** [resp.json()] *)
Definition json (resp : response) : res pyval :=
  match body resp with
  | Some v => Ret v
  | None => Raise JSONDecodeError
  end.

(** ** The telemetry frame *)

(** Column labels: the keys of a JSON object, or positions when the record
    is no object. *)
Inductive label : Type :=
| LStr (s : string)
| LPos (n : nat).

Definition label_is (k : string) (l : label) : bool :=
  match l with
  | LStr s => String.eqb k s
  | LPos _ => false
  end.

(** A frame of one row: its columns and the cell of each. *)
Definition DataFrame : Type := list (label * pyval).

(** [pd.DataFrame([data])] *)
Definition DataFrame_of_record (data : pyval) : DataFrame :=
  match data with
  | PDict kvs => map (fun kv => (LStr (fst kv), snd kv)) kvs
  | PList xs => combine (map LPos (seq 0 (List.length xs))) xs
  | _ => [(LPos 0, data)]
  end.

(** [df.drop(cols, errors="ignore", axis=1, inplace=True)] *)
Definition drop (cols : list string) (df : DataFrame) : DataFrame :=
  filter (fun c => negb (existsb (fun k => label_is k (fst c)) cols)) df.

(** [df[k].iloc[0]] *)
Definition cell (df : DataFrame) (k : string) : res pyval :=
  match find (fun c => label_is k (fst c)) df with
  | Some c => Ret (snd c)
  | None => Raise (KeyError k)
  end.

Open Scope res_scope.

Definition get_iss_telemetry (r : http_result) : res (option DataFrame) :=
  try_except
    (resp <- requests_get r ;;
     raise_for_status resp ;;;
     data <- json resp ;;
     let df := DataFrame_of_record data in
     let df := drop ["id"; "footprint"; "daynum"; "solar_lat"; "solar_lon"] df in
     Ret (Some df))
    (fun e => match e with
              | Timeout | ConnectionError | HTTPError => true
              | _ => false
              end)
    (fun _ => Ret None).

(** ** The track frame and its segments *)

Record row : Type := mkRow {
  r_lat : float;
  r_lon : float;
  r_vis : pyval
}.

(** The dictionary of three lists built from the deques (the frame's
    columns, and the value handed to the store). *)
Record track_columns : Type := mkColumns {
  col_lat : list float;
  col_lon : list float;
  col_vis : list pyval
}.

Definition rows_of (c : track_columns) : list row :=
  map (fun t => mkRow (fst (fst t)) (snd (fst t)) (snd t))
      (combine (combine (col_lat c) (col_lon c)) (col_vis c)).

(** [pd.DataFrame({"lat": ..., "lon": ..., "vis": ...})]: ValueError when
    the lists differ in length.  The cells keep the values of the lists,
    as pandas does for a column of strings, also with lists or
    dictionaries among them; a column with numbers or None is coerced
    (numbers stored as numpy scalars, None read back as nan), and on such
    a column only the length check here is the program's. *)
Definition track_frame (c : track_columns) : res (list row) :=
  if (Nat.eqb (List.length (col_lat c)) (List.length (col_lon c))
      && Nat.eqb (List.length (col_lon c)) (List.length (col_vis c)))%bool
  then Ret (rows_of c)
  else Raise ValueError.

(** [df["vis"].iloc[i]], for an index in range. *)
Definition vis_iloc (df : list row) (i : nat) : pyval :=
  nth i (map r_vis df) PNone.

(** [df.iloc[start:stop]] and [df.iloc[start:]] *)
Definition iloc_slice (df : list row) (start stop : nat) : list row :=
  firstn (stop - start) (skipn start df).

Definition iloc_from (df : list row) (start : nat) : list row :=
  skipn start df.

(** One turn of the loop of [split_segments], on [(segments, start)]. *)
Definition split_step (df : list row) (acc : list (list row) * nat) (i : nat)
  : list (list row) * nat :=
  let (segments, start) := acc in
  if py_ne (vis_iloc df i) (vis_iloc df (i - 1))
  then (segments ++ [iloc_slice df start i], i)
  else (segments, start).

Definition split_segments (df : list row) : list (list row) :=
  match df with
  | [] => []
  | _ =>
      let (segments, start) :=
        fold_left (split_step df) (seq 1 (List.length df - 1)) ([], 0) in
      segments ++ [iloc_from df start]
  end.

(** ** The figure *)

Record line_style : Type := mkLine { width : Z; color : string }.
Record marker_style : Type := mkMarker { size : Z; marker_color : string }.

(** [go.Scattergeo(...)] with the keyword arguments the module passes. *)
Record trace : Type := Scattergeo {
  lat : list float;
  lon : list float;
  mode : string;
  line : option line_style;
  text : list string;
  textfont : option Z;
  marker : option marker_style;
  showlegend : bool;
  geo : string
}.

Record annotation : Type := mkAnnotation {
  a_text : string;
  a_font_size : Z;
  a_font_color : string
}.

(** The part of the layout that depends on the tick; the projection and
    colour settings of [geo] and [geo2] are constants of the module. *)
Record layout : Type := mkLayout {
  images : list string;
  annotations : list annotation
}.

Record figure : Type := mkFigure {
  data : list trace;
  fig_layout : option layout
}.

(** [go.Figure()] *)
Definition Figure : figure := mkFigure [] None.

Definition add_trace (fig : figure) (t : trace) : figure :=
  mkFigure (data fig ++ [t]) (fig_layout fig).

Definition update_layout (fig : figure) (l : layout) : figure :=
  mkFigure (data fig) (Some l).

(** [seg["vis"].iloc[0]] *)
Definition first_vis (seg : list row) : res pyval :=
  match seg with
  | r :: _ => Ret (r_vis r)
  | [] => Raise IndexError
  end.

(** The line of one segment (lines 199-206). *)
Definition line_trace (seg : list row) (c : string) : trace :=
  Scattergeo (map r_lat seg) (map r_lon seg) "lines" (Some (mkLine 2 c))
             [] None None false "geo".

(** The body of the loop over the segments (lines 197-206). *)
Definition add_segment_trace (fig : figure) (seg : list row) : res figure :=
  vtype <- first_vis seg ;;
  known <- dict_contains color_map vtype ;;
  if known : bool then
    c <- dict_getitem color_map vtype ;;
    Ret (add_trace fig (line_trace seg c))
  else Ret fig.

Fixpoint add_segment_traces (fig : figure) (segs : list (list row))
  : res figure :=
  match segs with
  | [] => Ret fig
  | seg :: rest =>
      fig' <- add_segment_trace fig seg ;;
      add_segment_traces fig' rest
  end.

(** The marker of the main map and the marker of the inset globe
    (lines 210-228). *)
Definition main_marker (lat lon : float) : trace :=
  Scattergeo [lat] [lon] "text" None ["🎅"] (Some 28%Z) None false "geo".

Definition inset_marker (lat lon : float) (current_color : string) : trace :=
  Scattergeo [lat] [lon] "markers" None [] None
             (Some (mkMarker 8 current_color)) false "geo2".

Definition legend_html : res string :=
  d <- dict_getitem color_map (PStr "daylight") ;;
  v <- dict_getitem color_map (PStr "visible") ;;
  e <- dict_getitem color_map (PStr "eclipsed") ;;
  Ret ("<b>Visibility</b><br>"
       ++ "<span style='color:" ++ d ++ "'>━━ ●</span> daylight<br>"
       ++ "<span style='color:" ++ v ++ "'>━━ ●</span> visible<br>"
       ++ "<span style='color:" ++ e ++ "'>━━ ●</span> eclipsed")%string.

(** ** What the module takes from its environment *)

(** Library functions and the file read at start-up. *)
Record runtime : Type := mkRuntime {
  (* float(s) for a string: None when s is no number *)
  float_of_str : string -> option float;
  (* s.upper() *)
  upper : string -> string;
  (* pycountry.countries.get(alpha_2=c): the name of the match, if any *)
  countries_get : string -> option string;
  (* base64 text of santa_face_400pct.png, empty when the file is absent *)
  encoded_image : string
}.

(** What one tick meets outside the process: the answer to the telemetry
    request, the answer to the coordinates request for a position, and the
    formatted UTC time. *)
Record world : Type := mkWorld {
  telemetry : http_result;
  coordinates : float -> float -> http_result;
  utcnow : string
}.

(** ** Country lookup (lines 160-173 of [update_map]) *)

(** [cdata.get(k)]: only a dictionary has the method. *)
Definition method_get (cdata : pyval) (k : string) : res pyval :=
  match cdata with
  | PDict kvs => Ret match assoc k kvs with Some v => v | None => PNone end
  | _ => Raise AttributeError
  end.

Definition country_lookup (rt : runtime) (r : http_result)
  : res (string * string) :=
  try_except
    (resp2 <- requests_get r ;;
     raise_for_status resp2 ;;;
     cdata <- json resp2 ;;
     code <- method_get cdata "country_code" ;;
     if (py_truthy code && py_ne code (PStr "??"))%bool then
       match code with
       | PStr c =>
           let country_name :=
             match countries_get rt (upper rt c) with
             | Some name => name
             | None => c
             end in
           Ret (country_name, "red")
       | _ => Raise AttributeError   (* code.upper() *)
       end
     else Ret ("Ocean", "red"))
    is_RequestException
    (fun _ => Ret ("Ocean", "red")).

(** ** The tick *)

(** Lines 153-157: the five fields read from the telemetry frame. *)
Record sample : Type := mkSample {
  s_lat : float;
  s_lon : float;
  s_alt : float;
  s_vel : float;
  s_vis : pyval
}.

Definition read_sample (rt : runtime) (df : DataFrame) : res sample :=
  lat <- (c <- cell df "latitude" ;; py_float (float_of_str rt) c) ;;
  lon <- (c <- cell df "longitude" ;; py_float (float_of_str rt) c) ;;
  alt <- (c <- cell df "altitude" ;; py_float (float_of_str rt) c) ;;
  vel <- (c <- cell df "velocity" ;; py_float (float_of_str rt) c) ;;
  vis <- cell df "visibility" ;;
  Ret (mkSample lat lon alt vel vis).

(** The six outputs of the callback, named after their components. *)
Record outputs : Type := mkOutputs {
  iss_map : figure;
  lat_box : string;
  lon_box : string;
  alt_box : string;
  vel_box : string;
  track_store : track_columns
}.

Definition snapshot (st : state) : track_columns :=
  mkColumns (items (TRACK_LAT st)) (items (TRACK_LON st))
            (items (TRACK_VIS st)).

(** Lines 183-286: everything after the appends; [st] is the state with
    the new sample in it. *)
Definition render (rt : runtime) (w : world) (s : sample)
           (country_name : string) (st : state) : res outputs :=
  let lat := s_lat s in
  let lon := s_lon s in
  track_df <- track_frame (snapshot st) ;;
  let track_data := snapshot st in
  let fig := Figure in
  fig <- add_segment_traces fig (split_segments track_df) ;;
  current_color <- dict_get color_map (s_vis s) "#FFFFFF" ;;
  let fig := add_trace fig (main_marker lat lon) in
  let fig := add_trace fig (inset_marker lat lon current_color) in
  legend <- legend_html ;;
  let fig :=
    update_layout fig
      (mkLayout
         [("data:image/png;base64," ++ encoded_image rt)%string]
         [ mkAnnotation "<b>Currently over:</b>" 24 "#00ff7f";
           mkAnnotation ("<b>" ++ country_name ++ "</b>")%string 30 "red";
           mkAnnotation ("<b>" ++ utcnow w ++ "</b>")%string 22 "red";
           mkAnnotation legend 20 "springgreen" ]) in
  Ret (mkOutputs fig (format_2f lat) (format_2f lon) (format_2f (s_alt s))
                 (format_2f (s_vel s)) track_data).

(** [update_map(_, track_data)]: the result (or the exception raised) and
    the deques afterwards. *)
Definition update_map (rt : runtime) (w : world) (n_intervals : Z)
           (track_data : track_columns) (st : state) : res outputs * state :=
  match get_iss_telemetry (telemetry w) with
  | Raise e => (Raise e, st)
  | Ret None => (Raise PreventUpdate, st)
  | Ret (Some df) =>
      match read_sample rt df with
      | Raise e => (Raise e, st)
      | Ret s =>
          match country_lookup rt (coordinates w (s_lat s) (s_lon s)) with
          | Raise e => (Raise e, st)
          | Ret (country_name, country_color) =>
              let st' := track_append st (s_lat s) (s_lon s) (s_vis s) in
              (render rt w s country_name st', st')
          end
      end
  end.

(** ** Vocabulary of the properties *)

(** The last [n] elements of a list. *)
Definition lastn {A} (n : nat) (l : list A) : list A :=
  skipn (List.length l - n) l.

(** A sequence of appends to the track buffer (lines 179-181, once per
    sample). *)
Definition track_append_row (st : state) (r : row) : state :=
  track_append st (r_lat r) (r_lon r) (r_vis r).

Definition track_appends (st : state) (samples : list row) : state :=
  fold_left track_append_row samples st.

(** The buffer read as a sequence of samples. *)
Definition track_rows (st : state) : list row := rows_of (snapshot st).

(** The three deques hold as many items each, within their common bound. *)
Definition aligned (st : state) : Prop :=
  List.length (items (TRACK_LAT st)) = List.length (items (TRACK_VIS st)) /\
  List.length (items (TRACK_LON st)) = List.length (items (TRACK_VIS st)) /\
  maxlen (TRACK_LAT st) = MAX_POINTS /\
  maxlen (TRACK_LON st) = MAX_POINTS /\
  maxlen (TRACK_VIS st) = MAX_POINTS.

(** Visibility as the telemetry endpoint documents it: a string. *)
Definition str_rows (df : list row) : Prop :=
  Forall (fun r => is_str (r_vis r) = true) df.

(** All samples of a segment carry one visibility. *)
Definition homogeneous (seg : list row) : Prop :=
  forall x y, In x seg -> In y seg -> r_vis x = r_vis y.

(** No sample of a segment has the visibility of a sample of the next
    segment. *)
Definition adjacent_differ (segs : list (list row)) : Prop :=
  forall i a b,
    nth_error segs i = Some a -> nth_error segs (S i) = Some b ->
    forall x y, In x a -> In y b -> r_vis x <> r_vis y.

(** The segmenter in the words of its contract: walk the sequence with the
    open segment [cur] and the visibility [prev] of the previous sample,
    start a new segment whenever the visibility differs from [prev], close
    the last segment at the end. *)
Fixpoint walk (prev : pyval) (cur rest : list row) : list (list row) :=
  match rest with
  | [] => [cur]
  | x :: rest' =>
      if py_ne (r_vis x) prev
      then cur :: walk (r_vis x) [x] rest'
      else walk (r_vis x) (cur ++ [x]) rest'
  end.

Definition segment (s : list row) : list (list row) :=
  match s with
  | [] => []
  | x :: rest => walk (r_vis x) [x] rest
  end.

(** [adjacent_differ], read along the list. *)
Fixpoint chain (segs : list (list row)) : Prop :=
  match segs with
  | a :: tl =>
      match tl with
      | b :: _ => (forall x y, In x a -> In y b -> r_vis x <> r_vis y) /\ chain tl
      | [] => True
      end
  | [] => True
  end.

(** A run of the loop of [split_segments], one rule per path through its
    body: [loop_run df i start segments out] says that the loop, entered
    at index [i] with the variables [start] and [segments], ends with the
    list [out] returned. *)
Inductive loop_run (df : list row)
  : nat -> nat -> list (list row) -> list (list row) -> Prop :=
| loop_end : forall i start segments,
    List.length df <= i ->
    loop_run df i start segments (segments ++ [iloc_from df start])
| loop_cut : forall i start segments out,
    i < List.length df ->
    py_ne (vis_iloc df i) (vis_iloc df (i - 1)) = true ->
    loop_run df (S i) i (segments ++ [iloc_slice df start i]) out ->
    loop_run df i start segments out
| loop_keep : forall i start segments out,
    i < List.length df ->
    py_ne (vis_iloc df i) (vis_iloc df (i - 1)) = false ->
    loop_run df (S i) start segments out ->
    loop_run df i start segments out.

(** A run of [split_segments] on [df] returning [out]. *)
Inductive split_run (df : list row) : list (list row) -> Prop :=
| run_empty : df = [] -> split_run df []
| run_loop : forall out,
    df <> [] -> loop_run df 1 0 [] out -> split_run df out.

(** A float with a value: neither [nan] nor an infinity. *)
Definition finite_float (x : float) : bool :=
  match Prim2SF x with
  | S754_zero _ | S754_finite _ _ _ => true
  | _ => false
  end.

Definition is_digit (c : ascii) : bool :=
  ((48 <=? nat_of_ascii c)%nat && (nat_of_ascii c <=? 57)%nat)%bool.

Fixpoint all_digits (s : string) : bool :=
  match s with
  | EmptyString => true
  | String c rest => (is_digit c && all_digits rest)%bool
  end.

Definition two_digits (s : string) : bool :=
  match s with
  | String d1 (String d2 EmptyString) => (is_digit d1 && is_digit d2)%bool
  | _ => false
  end.

(** One or more digits, a point, two digits. *)
Fixpoint int_dot_frac (s : string) : bool :=
  match s with
  | EmptyString => false
  | String c rest =>
      (is_digit c &&
       match rest with
       | String c' rest' =>
           if Ascii.eqb c' "." then two_digits rest' else int_dot_frac rest
       | EmptyString => false
       end)%bool
  end.

(** Text with exactly two decimal places: an optional minus sign, digits,
    a point, two digits. *)
Definition two_decimals (s : string) : bool :=
  match s with
  | String c rest =>
      if Ascii.eqb c "-" then int_dot_frac rest else int_dot_frac s
  | EmptyString => false
  end.

(** The four readouts of the outputs, in the order of the callback. *)
Definition readouts (out : outputs) : list string :=
  [lat_box out; lon_box out; alt_box out; vel_box out].

(** The fallback of the country lookup. *)
Definition fallback : string * string := ("Ocean", "red").


(** An HTTP error status, as [raise_for_status] sees it. *)
Definition error_status (c : Z) : bool := ((400 <=? c) && (c <? 600))%Z.

(** The columns the fetch removes from the record. *)
Definition dropped_columns : list string :=
  ["id"; "footprint"; "daynum"; "solar_lat"; "solar_lon"].

(** The fields the tick reads from the record. *)
Definition required_fields : list string :=
  ["latitude"; "longitude"; "altitude"; "velocity"; "visibility"].

(** One of the three categories of the style table. *)
Definition known (v : pyval) : bool :=
  existsb (fun k => py_eq v (PStr k)) ["daylight"; "visible"; "eclipsed"].

(** The line layers in the words of the contract: each segment gives the
    line of its style, a segment without a style gives nothing. *)
Definition layer (seg : list row) : list trace :=
  match seg with
  | r :: _ =>
      match dict_find color_map (r_vis r) with
      | Some c => [line_trace seg c]
      | None => []
      end
  | [] => []
  end.

Definition line_layers (segs : list (list row)) : list trace :=
  flat_map layer segs.

(** Every visibility in the buffer can be looked up in a dictionary. *)
Definition hashable_track (st : state) : Prop :=
  Forall (fun v => hashable v = true) (items (TRACK_VIS st)).

(** A runtime to run the examples with: an upper-casing of ASCII letters,
    a three-entry excerpt of the country table, decimal text left
    unparsed, no image. *)
Definition ascii_upper (c : ascii) : ascii :=
  let n := nat_of_ascii c in
  if ((97 <=? n)%nat && (n <=? 122)%nat)%bool then ascii_of_nat (n - 32) else c.

Fixpoint string_upper (s : string) : string :=
  match s with
  | EmptyString => EmptyString
  | String c rest => String (ascii_upper c) (string_upper rest)
  end.

Definition demo_runtime : runtime :=
  mkRuntime (fun _ => None) string_upper
            (fun c => assoc c [("US", "United States"); ("FR", "France");
                               ("JP", "Japan")])
            EmptyString.

Definition demo_record (fields : list (string * pyval)) : http_result :=
  Response 200 (Some (PDict fields)).

Definition demo_telemetry : list (string * pyval) :=
  [("name", PStr "iss"); ("id", PInt 25544);
   ("latitude", PFloat 51.5); ("longitude", PFloat (-0.125));
   ("altitude", PFloat 420.25); ("velocity", PInt 27580);
   ("visibility", PStr "daylight"); ("footprint", PFloat 4500);
   ("units", PStr "kilometers")].

Definition demo_world (fields : list (string * pyval)) (code : string) : world :=
  mkWorld (demo_record fields)
          (fun _ _ => demo_record [("country_code", PStr code)])
          "2025-12-24 23:59:59 UTC".

Definition record_without_latitude : list (string * pyval) :=
  [("longitude", PFloat (-0.125)); ("altitude", PFloat 420.25);
   ("velocity", PInt 27580); ("visibility", PStr "daylight")].

(** The colour of the inset marker for a visibility. *)
Definition inset_color (vis : pyval) : string :=
  match dict_find color_map vis with
  | Some c => c
  | None => "#FFFFFF"
  end.

(** The visibility of a segment: that of its first sample. *)
Definition segment_known (seg : list row) : bool :=
  match seg with
  | r :: _ => known (r_vis r)
  | [] => false
  end.

(** A short track with a stretch of a visibility outside the style table,
    and the buffer that holds it. *)
Definition demo_rows : list row :=
  [mkRow 50 (-3) (PStr "daylight"); mkRow 50.5 (-2) (PStr "mystery");
   mkRow 51 (-1) (PStr "mystery"); mkRow 51.25 (-0.5) (PStr "visible")].

Definition demo_state : state := track_appends initial_state demo_rows.

Definition demo_store : track_columns := mkColumns [] [] [].

(** The telemetry record with another visibility. *)
Definition demo_telemetry_with (vis : pyval) : list (string * pyval) :=
  [("name", PStr "iss"); ("id", PInt 25544);
   ("latitude", PFloat 51.5); ("longitude", PFloat (-0.125));
   ("altitude", PFloat 420.25); ("velocity", PInt 27580);
   ("visibility", vis); ("footprint", PFloat 4500)].

Definition failing_world : world :=
  mkWorld (RequestFails ReqTimeout)
          (fun _ _ => RequestFails ReqTimeout)
          "2025-12-24 23:59:59 UTC".

(** The deques after a tick, and after a run of ticks, each with its own
    answers from the network. *)
Definition tick_state (rt : runtime) (st : state)
           (t : world * Z * track_columns) : state :=
  snd (update_map rt (fst (fst t)) (snd (fst t)) (snd t) st).

Definition run_ticks (rt : runtime) (ticks : list (world * Z * track_columns))
           (st : state) : state :=
  fold_left (tick_state rt) ticks st.

(** The same two properties in Python's own terms, for visibilities of any
    kind: inside a segment no sample differs ([!=]) from the one before
    it, and the first sample of a segment differs from the last sample of
    the segment before. *)
Fixpoint unbroken (prev : pyval) (seg : list row) : Prop :=
  match seg with
  | [] => True
  | x :: rest => py_ne (r_vis x) prev = false /\ unbroken (r_vis x) rest
  end.

Definition python_run (seg : list row) : Prop :=
  match seg with
  | [] => False
  | x :: rest => unbroken (r_vis x) rest
  end.

Definition last_vis (seg : list row) : pyval :=
  r_vis (last seg (mkRow 0 0 PNone)).

Fixpoint python_cuts (segs : list (list row)) : Prop :=
  match segs with
  | a :: tl =>
      match tl with
      | b :: _ =>
          match b with
          | y :: _ => py_ne (r_vis y) (last_vis a) = true
          | [] => False
          end /\ python_cuts tl
      | [] => True
      end
  | [] => True
  end.

(** ** Further vocabulary *)

(** The segment starts with a visibility no dictionary can look up. *)
Definition first_unhashable (seg : list row) : bool :=
  match seg with
  | r :: _ => negb (hashable (r_vis r))
  | [] => false
  end.

(** Some visibility in the buffer is a list or a dictionary. *)
Definition poisoned (st : state) : Prop :=
  Exists (fun v => hashable v = false) (items (TRACK_VIS st)).

(** The number of places where a visibility differs ([!=]) from the one
    before it. *)
Fixpoint changes (prev : pyval) (rest : list row) : nat :=
  match rest with
  | [] => 0
  | x :: rest' =>
      (if py_ne (r_vis x) prev then 1 else 0) + changes (r_vis x) rest'
  end.

(** The exceptions a tick lets out. *)
Definition tick_exception (e : exn) : Prop :=
  match e with
  | PreventUpdate | JSONDecodeError | OtherRequestException
  | TypeError | ValueError | OverflowError | AttributeError => True
  | KeyError k => In k required_fields
  | Timeout | ConnectionError | HTTPError | IndexError => False
  end.

(** The answers to the coordinates request that make the lookup raise: a
    JSON body under a non-error status that is no object, or whose country
    code is a truthy value other than a string. *)
Definition malformed_geocode (r : http_result) : bool :=
  match r with
  | Response c (Some data) =>
      (negb (error_status c) &&
       match data with
       | PDict kvs =>
           let code := match assoc "country_code" kvs with
                       | Some v => v
                       | None => PNone
                       end in
           py_truthy code && negb (is_str code)
       | _ => true
       end)%bool
  | _ => false
  end.

(** The sample of a tick as a row of the buffer. *)
Definition row_of_sample (s : sample) : row :=
  mkRow (s_lat s) (s_lon s) (s_vis s).

(** A visibility compared as a plain Python object: a string, a list or a
    dictionary.  (Numbers, booleans and None come out of a frame as numpy
    scalars or nan, whose comparison with a list is element-wise.) *)
Definition plain_cell (v : pyval) : bool :=
  (is_str v || negb (hashable v))%bool.

Definition plain_track (st : state) : Prop :=
  Forall (fun v => plain_cell v = true) (items (TRACK_VIS st)).

(** * Properties *)

(** ** The [.2f] format on sample values *)

Example format_2f_half : format_2f 51.5%float = "51.50".
Proof. vm_compute. reflexivity. Qed.

Example format_2f_tie_even : format_2f 0.125%float = "0.12".
Proof. vm_compute. reflexivity. Qed.

Example format_2f_tie_up : format_2f 0.375%float = "0.38".
Proof. vm_compute. reflexivity. Qed.

Example format_2f_negative : format_2f (-27572.25)%float = "-27572.25".
Proof. vm_compute. reflexivity. Qed.

Example format_2f_negative_zero : format_2f (-0.001953125)%float = "-0.00".
Proof. vm_compute. reflexivity. Qed.

Example format_2f_nan : format_2f nan = "nan".
Proof. vm_compute. reflexivity. Qed.

(** ** The bounded deque *)

Section Deque.
Context {A : Type}.

Lemma lastn_length (n : nat) (l : list A) :
  List.length (lastn n l) = Nat.min n (List.length l).
Proof. unfold lastn. rewrite length_skipn. lia. Qed.

Lemma lastn_all (n : nat) (l : list A) :
  List.length l <= n -> lastn n l = l.
Proof.
  intros H. unfold lastn.
  replace (List.length l - n) with 0 by lia. apply skipn_0.
Qed.

Lemma lastn_snoc (n : nat) (l : list A) (x : A) :
  lastn n (lastn n l ++ [x]) = lastn n (l ++ [x]).
Proof.
  unfold lastn.
  rewrite !length_app, length_skipn. cbn [List.length].
  rewrite !skipn_app, skipn_skipn, length_skipn.
  f_equal.
  - f_equal. lia.
  - f_equal. lia.
Qed.

(** One append keeps the last [maxlen] items of what it is given. *)
Lemma deque_append_items (d : deque A) (x : A) :
  List.length (items d) <= maxlen d ->
  items (deque_append d x) = lastn (maxlen d) (items d ++ [x]).
Proof.
  intros Hlen. unfold deque_append, lastn. cbn [items].
  rewrite length_app. cbn [List.length].
  destruct (Nat.ltb_spec (maxlen d) (List.length (items d) + 1)) as [Hfull | Hroom].
  - replace (List.length (items d) + 1 - maxlen d) with 1 by lia.
    destruct (items d ++ [x]); reflexivity.
  - replace (List.length (items d) + 1 - maxlen d) with 0 by lia.
    reflexivity.
Qed.

Lemma deque_append_maxlen (d : deque A) (x : A) :
  maxlen (deque_append d x) = maxlen d.
Proof. reflexivity. Qed.

Lemma deque_append_bounded (d : deque A) (x : A) :
  List.length (items d) <= maxlen d ->
  List.length (items (deque_append d x)) <= maxlen d.
Proof.
  intros H. rewrite deque_append_items by exact H.
  rewrite lastn_length. lia.
Qed.

(** Appending a whole sequence to a fresh deque. *)
Lemma deque_appends_items (n : nat) (xs : list A) :
  items (fold_left deque_append xs (deque_new A n)) = lastn n xs /\
  maxlen (fold_left deque_append xs (deque_new A n)) = n.
Proof.
  induction xs as [| x xs IH] using rev_ind.
  - split; reflexivity.
  - rewrite fold_left_app. cbn [fold_left].
    destruct IH as [IHi IHm]. split.
    + rewrite deque_append_items.
      * rewrite IHm, IHi. apply lastn_snoc.
      * rewrite IHm, IHi, lastn_length. lia.
    + rewrite deque_append_maxlen. exact IHm.
Qed.

End Deque.

Example deque_capacity_three :
  items (fold_left deque_append ["s0"; "s1"; "s2"; "s3"] (deque_new string 3))
  = ["s1"; "s2"; "s3"].
Proof. reflexivity. Qed.

(** ** The track buffer *)

Lemma lastn_map {A B} (f : A -> B) (n : nat) (l : list A) :
  lastn n (map f l) = map f (lastn n l).
Proof. unfold lastn. rewrite length_map. apply skipn_map. Qed.

Lemma rows_of_columns (l : list row) :
  rows_of (mkColumns (map r_lat l) (map r_lon l) (map r_vis l)) = l.
Proof.
  unfold rows_of. cbn [col_lat col_lon col_vis].
  induction l as [| [a b c] l IH]; cbn; [reflexivity | now f_equal].
Qed.

Lemma track_appends_deques (samples : list row) (st : state) :
  TRACK_LAT (track_appends st samples)
  = fold_left deque_append (map r_lat samples) (TRACK_LAT st) /\
  TRACK_LON (track_appends st samples)
  = fold_left deque_append (map r_lon samples) (TRACK_LON st) /\
  TRACK_VIS (track_appends st samples)
  = fold_left deque_append (map r_vis samples) (TRACK_VIS st).
Proof.
  revert st. induction samples as [| r samples IH]; intros st.
  - repeat split.
  - cbn [track_appends fold_left map].
    specialize (IH (track_append_row st r)).
    unfold track_appends in IH. exact IH.
Qed.

Lemma track_appends_rows (samples : list row) :
  track_rows (track_appends initial_state samples) = lastn MAX_POINTS samples.
Proof.
  unfold track_rows, snapshot.
  destruct (track_appends_deques samples initial_state) as (Hlat & Hlon & Hvis).
  rewrite Hlat, Hlon, Hvis. cbn [initial_state TRACK_LAT TRACK_LON TRACK_VIS].
  rewrite (proj1 (deque_appends_items MAX_POINTS (map r_lat samples))).
  rewrite (proj1 (deque_appends_items MAX_POINTS (map r_lon samples))).
  rewrite (proj1 (deque_appends_items MAX_POINTS (map r_vis samples))).
  rewrite !lastn_map. apply rows_of_columns.
Qed.

Lemma track_appends_sizes (samples : list row) :
  List.length (items (TRACK_LAT (track_appends initial_state samples)))
  = Nat.min MAX_POINTS (List.length samples) /\
  List.length (items (TRACK_LON (track_appends initial_state samples)))
  = Nat.min MAX_POINTS (List.length samples) /\
  List.length (items (TRACK_VIS (track_appends initial_state samples)))
  = Nat.min MAX_POINTS (List.length samples).
Proof.
  destruct (track_appends_deques samples initial_state) as (Hlat & Hlon & Hvis).
  rewrite Hlat, Hlon, Hvis. cbn [initial_state TRACK_LAT TRACK_LON TRACK_VIS].
  rewrite (proj1 (deque_appends_items MAX_POINTS (map r_lat samples))).
  rewrite (proj1 (deque_appends_items MAX_POINTS (map r_lon samples))).
  rewrite (proj1 (deque_appends_items MAX_POINTS (map r_vis samples))).
  rewrite !lastn_length, !length_map. repeat split.
Qed.

(** C1. Whatever sequence of samples is appended to the track buffer of a
    freshly loaded module, after every append each of the three deques
    holds at most [MAX_POINTS] = 1080 items, and the buffer is exactly the
    last 1080 appended samples in arrival order: after 1080 + k appends the
    k oldest samples are gone and the rest is untouched. *)
Theorem track_buffer_bounded_fifo (samples : list row) :
  MAX_POINTS = 1080 /\
  (forall i,
      let st := track_appends initial_state (firstn i samples) in
      List.length (items (TRACK_LAT st)) <= MAX_POINTS /\
      List.length (items (TRACK_LON st)) <= MAX_POINTS /\
      List.length (items (TRACK_VIS st)) <= MAX_POINTS /\
      List.length (track_rows st) <= MAX_POINTS) /\
  track_rows (track_appends initial_state samples) = lastn MAX_POINTS samples /\
  (forall k, List.length samples = MAX_POINTS + k ->
             track_rows (track_appends initial_state samples) = skipn k samples /\
             List.length (track_rows (track_appends initial_state samples))
             = MAX_POINTS).
Proof.
  split; [reflexivity |]. split; [| split].
  - intros i st. subst st.
    destruct (track_appends_sizes (firstn i samples)) as (Hlat & Hlon & Hvis).
    rewrite Hlat, Hlon, Hvis, track_appends_rows, lastn_length.
    repeat split; apply Nat.le_min_l.
  - apply track_appends_rows.
  - intros k Hk. rewrite track_appends_rows. unfold lastn. rewrite Hk.
    replace (MAX_POINTS + k - MAX_POINTS) with k by lia.
    split; [reflexivity |]. rewrite length_skipn. lia.
Qed.

(** ** The segmenter *)

Lemma py_ne_str (a b : pyval) :
  is_str a = true -> is_str b = true ->
  (py_ne a b = true <-> a <> b) /\ (py_ne a b = false <-> a = b).
Proof.
  destruct a; try discriminate. destruct b; try discriminate. intros _ _.
  unfold py_ne. cbn [py_eq].
  destruct (String.eqb_spec s s0) as [-> | Hne]; cbn.
  - split; split; intros H; try reflexivity; try discriminate.
    now contradiction H.
  - split; split; intros H; try reflexivity; try discriminate.
    + congruence.
    + congruence.
Qed.

Lemma vis_iloc_app (pre rest : list row) (x : row) :
  vis_iloc (pre ++ x :: rest) (List.length pre) = r_vis x.
Proof.
  unfold vis_iloc. rewrite map_app. cbn [map].
  rewrite app_nth2; rewrite length_map; [| lia].
  now rewrite Nat.sub_diag.
Qed.

Lemma iloc_slice_app (pre cur rest : list row) :
  iloc_slice (pre ++ cur ++ rest) (List.length pre)
             (List.length pre + List.length cur) = cur.
Proof.
  unfold iloc_slice.
  rewrite skipn_app, skipn_all, Nat.sub_diag, skipn_0. cbn [app].
  replace (List.length pre + List.length cur - List.length pre)
    with (List.length cur) by lia.
  rewrite firstn_app, firstn_all, Nat.sub_diag. cbn [firstn].
  apply app_nil_r.
Qed.

(** The loop of [split_segments], started in the middle of the frame with
    the open segment [cur] after the closed part [pre], does what [walk]
    does on the rest. *)
Lemma split_loop_walk (rest : list row) :
  forall (df pre cur : list row) (last : row) (segments : list (list row)),
    df = pre ++ (cur ++ [last]) ++ rest ->
    (let (segments', start') :=
       fold_left (split_step df)
                 (seq (List.length pre + List.length (cur ++ [last]))
                      (List.length rest))
                 (segments, List.length pre) in
     segments' ++ [iloc_from df start'])
    = segments ++ walk (r_vis last) (cur ++ [last]) rest.
Proof.
  induction rest as [| x rest IH]; intros df pre cur last segments Hdf.
  - cbn [List.length seq fold_left walk]. f_equal. f_equal.
    unfold iloc_from. subst df.
    rewrite skipn_app, skipn_all, Nat.sub_diag, skipn_0. cbn [app].
    now rewrite app_nil_r.
  - cbn [List.length seq fold_left walk].
    assert (Hi : vis_iloc df (List.length pre + List.length (cur ++ [last]))
                 = r_vis x).
    { subst df. rewrite app_assoc, <- length_app. apply vis_iloc_app. }
    assert (Hp : vis_iloc df (List.length pre + List.length (cur ++ [last]) - 1)
                 = r_vis last).
    { subst df. rewrite length_app. cbn [List.length].
      replace (List.length pre + (List.length cur + 1) - 1)
        with (List.length (pre ++ cur)) by (rewrite length_app; lia).
      replace (pre ++ (cur ++ [last]) ++ x :: rest)
        with ((pre ++ cur) ++ last :: x :: rest)
        by (now rewrite <- !app_assoc).
      apply vis_iloc_app. }
    unfold split_step at 2. rewrite Hi, Hp.
    destruct (py_ne (r_vis x) (r_vis last)).
    + assert (Hs : iloc_slice df (List.length pre)
                     (List.length pre + List.length (cur ++ [last]))
                   = cur ++ [last]).
      { subst df. apply iloc_slice_app. }
      rewrite Hs.
      specialize (IH df (pre ++ cur ++ [last]) [] x
                     (segments ++ [cur ++ [last]])).
      cbn [app List.length] in IH.
      rewrite length_app in IH.
      replace (S (List.length pre + List.length (cur ++ [last])))
        with (List.length pre + List.length (cur ++ [last]) + 1) by lia.
      rewrite IH.
      * now rewrite <- app_assoc.
      * subst df. now rewrite <- !app_assoc.
    + specialize (IH df pre (cur ++ [last]) x segments).
      rewrite (length_app (cur ++ [last]) [x]) in IH. cbn [List.length] in IH.
      replace (S (List.length pre + List.length (cur ++ [last])))
        with (List.length pre + (List.length (cur ++ [last]) + 1)) by lia.
      apply IH. subst df. now rewrite <- !app_assoc.
Qed.

(** [split_segments] computes the segmentation of the contract. *)
Lemma split_segments_segment (df : list row) :
  split_segments df = segment df.
Proof.
  destruct df as [| x rest]; [reflexivity |].
  unfold split_segments, segment.
  pose proof (@split_loop_walk rest (x :: rest) [] [] x [] eq_refl) as H.
  cbn [List.length app Nat.add] in H.
  replace (List.length (x :: rest) - 1) with (List.length rest)
    by (cbn [List.length]; lia).
  exact H.
Qed.

Lemma walk_concat (rest : list row) :
  forall prev cur, List.concat (walk prev cur rest) = cur ++ rest.
Proof.
  induction rest as [| x rest IH]; intros prev cur; cbn [walk].
  - cbn. now rewrite app_nil_r.
  - destruct (py_ne (r_vis x) prev).
    + cbn [List.concat]. rewrite IH. reflexivity.
    + rewrite IH. now rewrite <- app_assoc.
Qed.

Lemma walk_nonempty (rest : list row) :
  forall prev cur,
    cur <> [] -> Forall (fun seg => seg <> []) (walk prev cur rest).
Proof.
  induction rest as [| x rest IH]; intros prev cur Hcur; cbn [walk].
  - constructor; [exact Hcur | constructor].
  - destruct (py_ne (r_vis x) prev).
    + constructor; [exact Hcur |]. apply IH. discriminate.
    + apply IH. destruct cur; discriminate.
Qed.

Lemma chain_adjacent (segs : list (list row)) :
  chain segs -> adjacent_differ segs.
Proof.
  induction segs as [| a tl IH]; intros Hc i s t Hs Ht.
  - destruct i; discriminate.
  - destruct tl as [| b tl'].
    + destruct i; cbn in Ht; [discriminate | destruct i; discriminate].
    + destruct Hc as [Hab Hc]. destruct i as [| i].
      * cbn in Hs, Ht. injection Hs as <-. injection Ht as <-. exact Hab.
      * apply (IH Hc i s t); assumption.
Qed.

(** On string visibilities [walk] yields runs: each segment has one
    visibility, neighbours have different ones, and the first segment
    extends the open one. *)
Lemma walk_runs (rest : list row) :
  forall prev cur,
    is_str prev = true -> str_rows rest -> cur <> [] ->
    (forall x, In x cur -> r_vis x = prev) ->
    Forall homogeneous (walk prev cur rest) /\
    chain (walk prev cur rest) /\
    exists more tl, walk prev cur rest = (cur ++ more) :: tl.
Proof.
  induction rest as [| x rest IH]; intros prev cur Hprev Hstr Hcur Hall;
    cbn [walk].
  - split; [| split; [exact I |]].
    + constructor; [| constructor].
      intros a b Ha Hb. now rewrite (Hall a Ha), (Hall b Hb).
    + exists [], []. now rewrite app_nil_r.
  - inversion Hstr as [| ? ? Hx Hrest]; subst.
    destruct (py_ne_str (r_vis x) prev Hx Hprev) as [Hne Heq].
    destruct (py_ne (r_vis x) prev) eqn:Hcmp.
    + assert (Hdiff : r_vis x <> prev) by now apply Hne.
      destruct (IH (r_vis x) [x] Hx Hrest) as (Hhom & Hchain & more & tl & Hw).
      { discriminate. }
      { intros y [<- | []]. reflexivity. }
      rewrite Hw in *. split; [| split].
      * constructor; [| exact Hhom].
        intros a b Ha Hb. now rewrite (Hall a Ha), (Hall b Hb).
      * cbn [chain]. split; [| exact Hchain].
        intros a b Ha Hb. rewrite (Hall a Ha).
        inversion Hhom as [| ? ? Hfirst _]; subst.
        rewrite (Hfirst b x Hb); [congruence |].
        now left.
      * exists [], (([x] ++ more) :: tl). now rewrite app_nil_r.
    + assert (Hsame : r_vis x = prev) by now apply Heq.
      destruct (IH (r_vis x) (cur ++ [x]) Hx Hrest) as (Hhom & Hchain & more & tl & Hw).
      { destruct cur; discriminate. }
      { intros y Hy. apply in_app_or in Hy. destruct Hy as [Hy | [<- | []]].
        - now rewrite (Hall y Hy).
        - reflexivity. }
      rewrite Hw in *. split; [exact Hhom | split; [exact Hchain |]].
      exists ([x] ++ more), tl. now rewrite <- app_assoc.
Qed.

Lemma unbroken_snoc (seg : list row) :
  forall prev x,
    unbroken prev seg ->
    py_ne (r_vis x) (match seg with [] => prev | _ => last_vis seg end) = false ->
    unbroken prev (seg ++ [x]).
Proof.
  induction seg as [| y seg IH]; intros prev x Hrun Hx.
  - cbn. split; [exact Hx | exact I].
  - destruct Hrun as [Hy Hrun]. cbn [app unbroken]. split; [exact Hy |].
    apply IH; [exact Hrun |].
    destruct seg as [| z seg]; [exact Hx |]. exact Hx.
Qed.

Lemma python_run_snoc (cur : list row) (x : row) :
  python_run cur -> py_ne (r_vis x) (last_vis cur) = false ->
  python_run (cur ++ [x]).
Proof.
  destruct cur as [| y cur]; [intros [] |]. intros Hrun Hx.
  cbn [app python_run]. apply unbroken_snoc; [exact Hrun |].
  destruct cur as [| z cur]; exact Hx.
Qed.

Lemma last_vis_snoc (cur : list row) (x : row) :
  last_vis (cur ++ [x]) = r_vis x.
Proof. unfold last_vis. now rewrite last_last. Qed.

(** On visibilities of any kind [walk] cuts exactly where Python's [!=]
    holds between a sample and the one before it. *)
Lemma walk_python_runs (rest : list row) :
  forall cur,
    python_run cur ->
    Forall python_run (walk (last_vis cur) cur rest) /\
    python_cuts (walk (last_vis cur) cur rest) /\
    exists more tl, walk (last_vis cur) cur rest = (cur ++ more) :: tl.
Proof.
  induction rest as [| x rest IH]; intros cur Hrun; cbn [walk].
  - split; [| split; [exact I |]].
    + constructor; [exact Hrun | constructor].
    + exists [], []. now rewrite app_nil_r.
  - destruct (py_ne (r_vis x) (last_vis cur)) eqn:Hcmp.
    + destruct (IH [x]) as (Hruns & Hcuts & more & tl & Hw); [exact I |].
      change (last_vis [x]) with (r_vis x) in *.
      rewrite Hw in *. split; [| split].
      * constructor; assumption.
      * cbn [python_cuts app]. split; assumption.
      * exists [], (([x] ++ more) :: tl). now rewrite app_nil_r.
    + destruct (IH (cur ++ [x])) as (Hruns & Hcuts & more & tl & Hw).
      { now apply python_run_snoc. }
      rewrite last_vis_snoc in *. rewrite Hw in *.
      split; [exact Hruns | split; [exact Hcuts |]].
      exists ([x] ++ more), tl. now rewrite <- app_assoc.
Qed.

Lemma split_segments_python_runs (df : list row) :
  Forall python_run (split_segments df) /\ python_cuts (split_segments df).
Proof.
  rewrite split_segments_segment.
  destruct df as [| x rest]; [split; [constructor | exact I] |].
  destruct (@walk_python_runs rest [x] I) as (Hruns & Hcuts & _).
  split; assumption.
Qed.

Lemma split_segments_concat (df : list row) :
  List.concat (split_segments df) = df.
Proof.
  rewrite split_segments_segment. destruct df as [| x rest]; [reflexivity |].
  unfold segment. apply walk_concat.
Qed.

Lemma split_segments_nonempty (df : list row) :
  Forall (fun seg => seg <> []) (split_segments df).
Proof.
  rewrite split_segments_segment. destruct df as [| x rest]; [constructor |].
  unfold segment. apply walk_nonempty. discriminate.
Qed.

Lemma split_segments_runs (df : list row) :
  str_rows df ->
  Forall homogeneous (split_segments df) /\ chain (split_segments df).
Proof.
  intros Hstr. rewrite split_segments_segment.
  destruct df as [| x rest]; [split; [constructor | exact I] |].
  inversion Hstr as [| ? ? Hx Hrest]; subst.
  destruct (@walk_runs rest (r_vis x) [x] Hx Hrest) as (Hhom & Hchain & _).
  - discriminate.
  - intros y [<- | []]. reflexivity.
  - split; assumption.
Qed.

(** C2. The segments of [split_segments], concatenated in order, are the
    input, each sample once; every segment is non-empty; on an empty input
    the result is the empty list; a segment is cut exactly where a
    visibility differs ([!=]) from the one before it; and, visibilities
    being strings, every segment carries a single visibility and no two
    adjacent segments share one. *)
Theorem split_segments_partition (df : list row) :
  List.concat (split_segments df) = df /\
  Forall (fun seg => seg <> []) (split_segments df) /\
  split_segments [] = [] /\
  Forall python_run (split_segments df) /\
  python_cuts (split_segments df) /\
  (str_rows df ->
   Forall homogeneous (split_segments df) /\
   adjacent_differ (split_segments df)).
Proof.
  split; [apply split_segments_concat |].
  split; [apply split_segments_nonempty |].
  split; [reflexivity |].
  split; [apply split_segments_python_runs |].
  split; [apply split_segments_python_runs |].
  intros Hstr. destruct (split_segments_runs Hstr) as [Hhom Hchain].
  split; [exact Hhom | now apply chain_adjacent].
Qed.

Example split_segments_scenario :
  let s0 := mkRow 1 2 (PStr "daylight") in
  let s1 := mkRow 3 4 (PStr "daylight") in
  let s2 := mkRow 5 6 (PStr "visible") in
  let s3 := mkRow 7 8 (PStr "eclipsed") in
  split_segments [s0; s1; s2] = [[s0; s1]; [s2]] /\
  split_segments [s1; s2; s3] = [[s1]; [s2]; [s3]].
Proof. split; reflexivity. Qed.

(** *** Runs of the segmenter *)

Lemma loop_run_functional (df : list row) :
  forall i start segments out1,
    loop_run df i start segments out1 ->
    forall out2, loop_run df i start segments out2 -> out1 = out2.
Proof.
  induction 1 as [i start segments Hend
                 | i start segments out Hlt Hcmp Hrun IH
                 | i start segments out Hlt Hcmp Hrun IH];
    intros out2 H2; inversion H2; subst;
    try reflexivity; try lia; try congruence.
  - now apply IH.
  - now apply IH.
Qed.

Lemma loop_run_fold (df : list row) :
  forall n i start segments,
    i + n = List.length df ->
    loop_run df i start segments
             (let (segments', start') :=
                fold_left (split_step df) (seq i n) (segments, start) in
              segments' ++ [iloc_from df start']).
Proof.
  induction n as [| n IH]; intros i start segments Hlen.
  - cbn [seq fold_left]. apply loop_end. lia.
  - cbn [seq fold_left]. unfold split_step at 2.
    destruct (py_ne (vis_iloc df i) (vis_iloc df (i - 1))) eqn:Hcmp.
    + apply loop_cut; [lia | exact Hcmp |]. apply IH. lia.
    + apply loop_keep; [lia | exact Hcmp |]. apply IH. lia.
Qed.

Lemma split_run_split_segments (df : list row) :
  split_run df (split_segments df).
Proof.
  destruct df as [| x rest].
  - now apply run_empty.
  - apply run_loop; [discriminate |].
    unfold split_segments. apply loop_run_fold. cbn [List.length]. lia.
Qed.

(** C7. The segmenter is a function of its input alone: every input has a
    run, any two runs on the same input return the same list of segments
    (same boundaries, same contents), and that list is the value of
    [split_segments]. *)
Theorem split_segments_deterministic (s : list row) :
  split_run s (split_segments s) /\
  (forall r1 r2, split_run s r1 -> split_run s r2 -> r1 = r2) /\
  (forall r, split_run s r -> r = split_segments s).
Proof.
  assert (Hfun : forall r1 r2, split_run s r1 -> split_run s r2 -> r1 = r2).
  { intros r1 r2 H1 H2.
    destruct H1 as [He1 | out1 Hne1 Hrun1]; destruct H2 as [He2 | out2 Hne2 Hrun2];
      try reflexivity; try contradiction.
    exact (loop_run_functional Hrun1 Hrun2). }
  split; [apply split_run_split_segments |].
  split; [exact Hfun |].
  intros r Hr. exact (Hfun _ _ Hr (split_run_split_segments s)).
Qed.

(** ** Two decimal places *)

Lemma is_digit_not_point (c : ascii) :
  is_digit c = true -> Ascii.eqb c "." = false /\ Ascii.eqb c "-" = false.
Proof.
  intros H. split.
  - destruct (Ascii.eqb_spec c ".") as [-> |]; [discriminate | reflexivity].
  - destruct (Ascii.eqb_spec c "-") as [-> |]; [discriminate | reflexivity].
Qed.

Lemma digit_is_digit (z : Z) : (0 <= z < 10)%Z -> is_digit (digit z) = true.
Proof.
  intros Hz. unfold digit.
  assert (Hn : Z.to_nat z < 10) by lia.
  destruct (Z.to_nat z) as [| [| [| [| [| [| [| [| [| [| n]]]]]]]]]];
    try reflexivity; lia.
Qed.

Lemma string_of_uint_digits (d : Decimal.uint) :
  all_digits (NilEmpty.string_of_uint d) = true.
Proof. induction d; cbn; auto. Qed.

Lemma string_of_nat_Z_digits (n : Z) :
  exists c rest,
    string_of_nat_Z n = String c rest /\
    is_digit c = true /\ all_digits rest = true.
Proof.
  unfold string_of_nat_Z, NilZero.string_of_uint.
  destruct (N.to_uint (Z.to_N n)) as [| d | d | d | d | d | d | d | d | d | d];
    cbn [NilEmpty.string_of_uint];
    eexists; eexists; (split; [reflexivity |]); split;
      try reflexivity; apply string_of_uint_digits.
Qed.

Lemma int_dot_frac_digits (ds : string) :
  forall c d1 d2,
    is_digit c = true -> all_digits ds = true ->
    is_digit d1 = true -> is_digit d2 = true ->
    int_dot_frac
      (String c (ds ++ "." ++ String d1 (String d2 EmptyString))%string) = true.
Proof.
  induction ds as [| c' ds IH]; intros c d1 d2 Hc Hds H1 H2.
  - cbn. now rewrite Hc, H1, H2.
  - cbn [all_digits] in Hds. apply andb_prop in Hds. destruct Hds as [Hc' Hds].
    cbn [String.append int_dot_frac]. rewrite Hc. cbn [andb].
    rewrite (proj1 (is_digit_not_point c' Hc')).
    exact (IH c' d1 d2 Hc' Hds H1 H2).
Qed.

Lemma fixed2_two_decimals (negative : bool) (h : Z) :
  (0 <= h)%Z -> two_decimals (fixed2 negative h) = true.
Proof.
  intros Hh. unfold fixed2.
  destruct (string_of_nat_Z_digits (h / 100)) as (c & rest & -> & Hc & Hrest).
  assert (H1 : is_digit (digit ((h / 10) mod 10)) = true).
  { apply digit_is_digit. apply Z.mod_pos_bound. lia. }
  assert (H2 : is_digit (digit (h mod 10)) = true).
  { apply digit_is_digit. apply Z.mod_pos_bound. lia. }
  destruct negative; cbn [String.append two_decimals].
  - cbn. apply (int_dot_frac_digits rest c _ _ Hc Hrest H1 H2).
  - rewrite (proj2 (is_digit_not_point c Hc)).
    apply (int_dot_frac_digits rest c _ _ Hc Hrest H1 H2).
Qed.

Lemma round_half_even_nonneg (num den : Z) :
  (0 <= num)%Z -> (0 < den)%Z -> (0 <= round_half_even num den)%Z.
Proof.
  intros Hn Hd. unfold round_half_even.
  assert (0 <= num / den)%Z by (apply Z.div_pos; lia).
  destruct (2 * (num mod den) ?= den)%Z; [destruct (Z.even _) | |]; lia.
Qed.

Lemma hundredths_of_nonneg (m : positive) (e : Z) :
  (0 <= hundredths_of m e)%Z.
Proof.
  unfold hundredths_of. destruct (Z.leb_spec 0 e).
  - assert (0 <= 2 ^ e)%Z by (apply Z.pow_nonneg; lia). nia.
  - apply round_half_even_nonneg; [lia |]. apply Z.pow_pos_nonneg; lia.
Qed.

(** A finite float is printed with exactly two decimal places; [nan] and
    the infinities are printed by name. *)
Lemma format_2f_finite (x : float) :
  finite_float x = true -> two_decimals (format_2f x) = true.
Proof.
  unfold finite_float, format_2f. destruct (Prim2SF x); try discriminate; intros _.
  - apply fixed2_two_decimals. lia.
  - apply fixed2_two_decimals. apply hundredths_of_nonneg.
Qed.

Lemma format_2f_not_finite (x : float) :
  finite_float x = false ->
  format_2f x = "nan" \/ format_2f x = "inf" \/ format_2f x = "-inf".
Proof.
  unfold finite_float, format_2f. destruct (Prim2SF x) as [s | s | | s m e];
    try discriminate; intros _; [destruct s |]; auto.
Qed.

(** ** The tick *)

(** *** Aligned deques *)

Lemma deque_append_length {A} (d : deque A) (x : A) :
  List.length (items (deque_append d x))
  = if (maxlen d <? List.length (items d) + 1)%nat
    then List.length (items d) else List.length (items d) + 1.
Proof.
  unfold deque_append. cbn [items]. rewrite length_app. cbn [List.length].
  destruct (maxlen d <? List.length (items d) + 1)%nat.
  - destruct (items d); cbn; [reflexivity |].
    rewrite length_app. cbn. lia.
  - rewrite length_app. reflexivity.
Qed.

Lemma aligned_initial : aligned initial_state.
Proof. repeat split. Qed.

Lemma aligned_track_append (st : state) (lat lon : float) (vis : pyval) :
  aligned st -> aligned (track_append st lat lon vis).
Proof.
  intros (H1 & H2 & M1 & M2 & M3). unfold aligned, track_append.
  cbn [TRACK_LAT TRACK_LON TRACK_VIS]. rewrite !deque_append_length.
  rewrite !deque_append_maxlen, M1, M2, M3, H1, H2. repeat split.
Qed.


Section Tick.
Variable rt : runtime.
Variable w : world.
Variable n_intervals : Z.

Lemma read_sample_inv (df : DataFrame) (s : sample) :
  read_sample rt df = Ret s ->
  bind (cell df "latitude") (py_float (float_of_str rt)) = Ret (s_lat s) /\
  bind (cell df "longitude") (py_float (float_of_str rt)) = Ret (s_lon s) /\
  bind (cell df "altitude") (py_float (float_of_str rt)) = Ret (s_alt s) /\
  bind (cell df "velocity") (py_float (float_of_str rt)) = Ret (s_vel s) /\
  cell df "visibility" = Ret (s_vis s).
Proof.
  unfold read_sample. intros H.
  destruct (bind (cell df "latitude") _) as [lat |] eqn:Elat; [| discriminate].
  destruct (bind (cell df "longitude") _) as [lon |] eqn:Elon; [| discriminate].
  destruct (bind (cell df "altitude") _) as [alt |] eqn:Ealt; [| discriminate].
  destruct (bind (cell df "velocity") _) as [vel |] eqn:Evel; [| discriminate].
  destruct (cell df "visibility") as [vis |] eqn:Evis; [| discriminate].
  cbn [bind] in H. injection H as <-. cbn. repeat split; reflexivity.
Qed.

(** A tick that returns went through every stage. *)
Lemma update_map_success_inv (td : track_columns) (st st' : state)
      (out : outputs) :
  update_map rt w n_intervals td st = (Ret out, st') ->
  exists df s country_name country_color,
    get_iss_telemetry (telemetry w) = Ret (Some df) /\
    read_sample rt df = Ret s /\
    country_lookup rt (coordinates w (s_lat s) (s_lon s))
    = Ret (country_name, country_color) /\
    st' = track_append st (s_lat s) (s_lon s) (s_vis s) /\
    render rt w s country_name st' = Ret out.
Proof.
  unfold update_map. intros H.
  destruct (get_iss_telemetry (telemetry w)) as [[df |] | e] eqn:Efetch;
    try discriminate.
  destruct (read_sample rt df) as [s | e] eqn:Eread; try discriminate.
  destruct (country_lookup rt _) as [[name colour] | e] eqn:Egeo;
    try discriminate.
  injection H as Hout Hst. subst st'.
  exists df, s, name, colour. repeat split; assumption.
Qed.

(** What a returned [render] is made of. *)
Lemma render_inv (s : sample) (country_name : string) (st : state)
      (out : outputs) :
  render rt w s country_name st = Ret out ->
  exists track_df lines current_color,
    track_frame (snapshot st) = Ret track_df /\
    add_segment_traces Figure (split_segments track_df) = Ret lines /\
    dict_get color_map (s_vis s) "#FFFFFF" = Ret current_color /\
    data (iss_map out)
    = data lines ++ [main_marker (s_lat s) (s_lon s);
                     inset_marker (s_lat s) (s_lon s) current_color] /\
    readouts out = map format_2f [s_lat s; s_lon s; s_alt s; s_vel s] /\
    track_store out = snapshot st.
Proof.
  unfold render. intros H.
  destruct (track_frame (snapshot st)) as [track_df |] eqn:Eframe;
    [| discriminate].
  cbn [bind] in H.
  destruct (add_segment_traces Figure (split_segments track_df))
    as [lines |] eqn:Elines; [| discriminate].
  cbn [bind] in H.
  destruct (dict_get color_map (s_vis s) "#FFFFFF") as [colour |] eqn:Ecol;
    [| discriminate].
  cbn [bind] in H.
  destruct legend_html as [legend |] eqn:Elegend; [| discriminate].
  cbn [bind] in H. injection H as <-.
  exists track_df, lines, colour.
  split; [first [reflexivity | assumption] |].
  split; [first [reflexivity | assumption] |].
  split; [first [reflexivity | assumption] |].
  split; [cbn; now rewrite <- app_assoc |]. split; reflexivity.
Qed.

Lemma update_map_no_sample (td : track_columns) (st : state) :
  get_iss_telemetry (telemetry w) = Ret None ->
  update_map rt w n_intervals td st = (Raise PreventUpdate, st).
Proof. intros H. unfold update_map. now rewrite H. Qed.

(** The deques after a tick are the deques before it, or those with the
    sample of the tick appended. *)
Lemma update_map_state (td : track_columns) (st : state) :
  snd (update_map rt w n_intervals td st) = st \/
  exists s, snd (update_map rt w n_intervals td st)
            = track_append st (s_lat s) (s_lon s) (s_vis s).
Proof.
  unfold update_map.
  destruct (get_iss_telemetry (telemetry w)) as [[df |] | e]; auto.
  destruct (read_sample rt df) as [s | e]; auto.
  destruct (country_lookup rt _) as [[name colour] | e]; auto.
  right. now exists s.
Qed.

(** A run of ticks from the loaded module keeps the deques aligned and
    within their bound, whatever the network answers. *)
Lemma tick_state_invariant (td : track_columns) (st : state) :
  aligned st /\ List.length (items (TRACK_VIS st)) <= MAX_POINTS ->
  aligned (tick_state rt st (w, n_intervals, td)) /\
  List.length (items (TRACK_VIS (tick_state rt st (w, n_intervals, td))))
  <= MAX_POINTS.
Proof.
  intros [Hal Hb]. unfold tick_state. cbn [fst snd].
  destruct (update_map_state td st) as [-> | [s ->]]; [now split |].
  split; [now apply aligned_track_append |].
  cbn [track_append TRACK_VIS].
  destruct Hal as (_ & _ & _ & _ & Hm). rewrite <- Hm.
  apply deque_append_bounded. now rewrite Hm.
Qed.

(** C3. When the telemetry fetch hands the tick no sample, the tick raises
    PreventUpdate, which is Dash's no-update (no figure, no readout, no
    store value), and the three deques afterwards are the deques before:
    same sizes, same contents. *)
Theorem fetch_failure_no_update (td : track_columns) (st : state) :
  get_iss_telemetry (telemetry w) = Ret None ->
  update_map rt w n_intervals td st = (Raise PreventUpdate, st).
Proof. apply update_map_no_sample. Qed.

(** C8. A tick that returns gives four readouts, which are the latitude,
    longitude, altitude and velocity of the fetched sample, each printed
    with the [.2f] format (two decimal places for every finite value); a
    tick whose fetch failed gives no readout: it raises PreventUpdate. *)
Theorem readouts_two_decimals (td : track_columns) (st : state) :
  (forall out st',
      update_map rt w n_intervals td st = (Ret out, st') ->
      exists df s,
        get_iss_telemetry (telemetry w) = Ret (Some df) /\
        read_sample rt df = Ret s /\
        readouts out = [format_2f (s_lat s); format_2f (s_lon s);
                        format_2f (s_alt s); format_2f (s_vel s)] /\
        Forall (fun x => finite_float x = true ->
                         two_decimals (format_2f x) = true)
               [s_lat s; s_lon s; s_alt s; s_vel s]) /\
  (get_iss_telemetry (telemetry w) = Ret None ->
   fst (update_map rt w n_intervals td st) = Raise PreventUpdate).
Proof.
  split.
  - intros out st' H.
    destruct (update_map_success_inv _ _ H)
      as (df & s & name & colour & Hfetch & Hread & _ & _ & Hrender).
    destruct (render_inv _ _ _ Hrender)
      as (track_df & lines & current & _ & _ & _ & _ & Hr & _).
    exists df, s. repeat split; try assumption.
    repeat constructor; apply format_2f_finite.
  - intros H. now rewrite update_map_no_sample.
Qed.

(** C9. The value of the store handed to the callback has no influence:
    with the same deques and the same answers from the network, two ticks
    given different [track_data] return the same figure, readouts and
    store value and leave the same deques; the store value returned is
    read off the deques after the appends, never off the one received. *)
Theorem update_map_ignores_store (td1 td2 : track_columns) (st : state) :
  update_map rt w n_intervals td1 st = update_map rt w n_intervals td2 st /\
  (forall out st',
      update_map rt w n_intervals td1 st = (Ret out, st') ->
      track_store out = snapshot st').
Proof.
  split; [reflexivity |].
  intros out st' H.
  destruct (update_map_success_inv _ _ H)
    as (df & s & name & colour & _ & _ & _ & _ & Hrender).
  destruct (render_inv _ _ _ Hrender)
    as (track_df & lines & current & _ & _ & _ & _ & _ & Hstore).
  exact Hstore.
Qed.

End Tick.

Lemma run_ticks_invariant (rt : runtime)
      (ticks : list (world * Z * track_columns)) :
  aligned (run_ticks rt ticks initial_state) /\
  List.length (items (TRACK_VIS (run_ticks rt ticks initial_state)))
  <= MAX_POINTS.
Proof.
  unfold run_ticks.
  assert (H0 : aligned initial_state /\
               List.length (items (TRACK_VIS initial_state)) <= MAX_POINTS).
  { split; [apply aligned_initial | cbn; lia]. }
  revert H0. generalize initial_state.
  induction ticks as [| [[w n] td] ticks IH]; intros st H; [exact H |].
  cbn [fold_left]. apply IH. now apply tick_state_invariant.
Qed.

(** ** The telemetry fetch *)

Lemma get_iss_telemetry_error_status (c : Z) (b : option pyval) :
  error_status c = true -> get_iss_telemetry (Response c b) = Ret None.
Proof.
  intros H. unfold get_iss_telemetry, raise_for_status.
  cbn [requests_get bind status_code]. unfold error_status in H.
  now rewrite H.
Qed.

Lemma get_iss_telemetry_json (c : Z) (data : pyval) :
  error_status c = false ->
  get_iss_telemetry (Response c (Some data))
  = Ret (Some (drop dropped_columns (DataFrame_of_record data))).
Proof.
  intros H. unfold get_iss_telemetry, raise_for_status.
  cbn [requests_get bind status_code]. unfold error_status in H.
  now rewrite H.
Qed.

(** What the handlers of the fetch leave uncaught. *)
Lemma get_iss_telemetry_uncaught :
  (forall c, error_status c = false ->
             get_iss_telemetry (Response c None) = Raise JSONDecodeError) /\
  get_iss_telemetry (RequestFails ReqOther) = Raise OtherRequestException.
Proof.
  split; [| reflexivity].
  intros c H. unfold get_iss_telemetry, raise_for_status.
  cbn [requests_get bind status_code]. unfold error_status in H.
  now rewrite H.
Qed.





(** ** The country lookup *)

Lemma country_lookup_response (rt : runtime) (c : Z) (b : option pyval) :
  error_status c = false ->
  country_lookup rt (Response c b)
  = try_except
      (cdata <- json (mkResponse c b) ;;
       code <- method_get cdata "country_code" ;;
       if (py_truthy code && py_ne code (PStr "??"))%bool then
         match code with
         | PStr s =>
             Ret (match countries_get rt (upper rt s) with
                  | Some name => name
                  | None => s
                  end, "red")
         | _ => Raise AttributeError
         end
       else Ret ("Ocean", "red"))
      is_RequestException
      (fun _ => Ret ("Ocean", "red")).
Proof.
  intros H. unfold country_lookup, raise_for_status.
  cbn [requests_get bind status_code]. unfold error_status in H.
  now rewrite H.
Qed.

Lemma py_ne_code (s : string) :
  py_ne (PStr s) (PStr "??") = negb (String.eqb s "??").
Proof. reflexivity. Qed.

(** C4, as the code has it. The country lookup returns the fallback
    ("Ocean", "red") without raising when the request fails, when the
    status is 4xx or 5xx, when the body is not JSON, and when the body is a
    JSON object whose country code is absent, null, empty or the text ??;
    for any other code that is a string it returns the name the table has
    for the upper-cased code, or the code itself when the table has none,
    with the colour "red". *)
Theorem country_lookup_outcomes (rt : runtime) :
  (forall e, country_lookup rt (RequestFails e) = Ret fallback) /\
  (forall c b, error_status c = true ->
               country_lookup rt (Response c b) = Ret fallback) /\
  (forall c, country_lookup rt (Response c None) = Ret fallback) /\
  (forall c kvs code,
      error_status c = false ->
      method_get (PDict kvs) "country_code" = Ret code ->
      py_truthy code = false \/ code = PStr "??" ->
      country_lookup rt (Response c (Some (PDict kvs))) = Ret fallback) /\
  (forall c kvs s,
      error_status c = false ->
      assoc "country_code" kvs = Some (PStr s) ->
      s <> EmptyString -> s <> "??" ->
      country_lookup rt (Response c (Some (PDict kvs)))
      = Ret (match countries_get rt (upper rt s) with
             | Some name => name
             | None => s
             end, "red")).
Proof.
  split; [| split; [| split; [| split]]].
  - intros []; reflexivity.
  - intros c b H. unfold country_lookup, raise_for_status.
    cbn [requests_get bind status_code]. unfold error_status in H.
    now rewrite H.
  - intros c. destruct (error_status c) eqn:H.
    + unfold country_lookup, raise_for_status.
      cbn [requests_get bind status_code]. unfold error_status in H.
      now rewrite H.
    + now rewrite country_lookup_response.
  - intros c kvs code Hc Hget Hcode.
    rewrite country_lookup_response by exact Hc.
    cbn [json body bind]. rewrite Hget. cbn [bind].
    destruct Hcode as [Hfalsy | ->].
    + now rewrite Hfalsy.
    + reflexivity.
  - intros c kvs s Hc Hget Hne Hq.
    rewrite country_lookup_response by exact Hc.
    cbn [json body bind method_get]. rewrite Hget. cbn [bind py_truthy].
    rewrite py_ne_code.
    destruct (String.eqb_spec s EmptyString) as [-> | _]; [now contradiction Hne |].
    destruct (String.eqb_spec s "??") as [-> | _]; [now contradiction Hq |].
    reflexivity.
Qed.

(** A code the table does not know is shown as it came: the label is the
    code, not "Ocean". *)
Lemma country_lookup_unknown_code :
  countries_get demo_runtime (upper demo_runtime "ZZ") = None /\
  country_lookup demo_runtime (demo_record [("country_code", PStr "ZZ")])
  = Ret ("ZZ", "red") /\
  country_lookup demo_runtime (demo_record [("country_code", PStr "ZZ")])
  <> Ret fallback.
Proof. repeat split. discriminate. Qed.

Example country_lookup_known_code :
  country_lookup demo_runtime (demo_record [("country_code", PStr "fr")])
  = Ret ("France", "red").
Proof. reflexivity. Qed.

Example country_lookup_unknown_place :
  country_lookup demo_runtime (demo_record [("country_code", PStr "??")])
  = Ret ("Ocean", "red").
Proof. reflexivity. Qed.

(** A body that is JSON but no object is not absorbed by the handler. *)
Example country_lookup_not_an_object :
  country_lookup demo_runtime (Response 200 (Some (PList [])))
  = Raise AttributeError.
Proof. reflexivity. Qed.

(** ** Scene composition *)

Lemma dict_contains_find {V} (d : list (string * V)) (k : pyval) :
  hashable k = true ->
  dict_contains d k
  = Ret match dict_find d k with Some _ => true | None => false end.
Proof.
  intros H. unfold dict_contains, dict_find. rewrite H. f_equal.
  induction d as [| kv d IH]; cbn [existsb find]; [reflexivity |].
  destruct (py_eq k (PStr (fst kv))); [reflexivity | exact IH].
Qed.

Lemma known_find (v : pyval) :
  known v = match dict_find color_map v with Some _ => true | None => false end.
Proof.
  unfold known, dict_find, color_map. cbn [existsb find fst].
  destruct (py_eq v (PStr "daylight")); [reflexivity |].
  destruct (py_eq v (PStr "visible")); [reflexivity |].
  destruct (py_eq v (PStr "eclipsed")); reflexivity.
Qed.

Lemma dict_find_str {V} (d : list (string * V)) (s : string) :
  dict_find d (PStr s) = assoc s d.
Proof.
  unfold dict_find. induction d as [| [k v] d IH]; cbn; [reflexivity |].
  destruct (String.eqb s k); [reflexivity | exact IH].
Qed.

(** One turn of the loop over the segments adds the layer of the segment. *)
Lemma add_segment_trace_layer (fig : figure) (r : row) (seg : list row) :
  hashable (r_vis r) = true ->
  add_segment_trace fig (r :: seg)
  = Ret (mkFigure (data fig ++ layer (r :: seg)) (fig_layout fig)).
Proof.
  intros H. unfold add_segment_trace, layer, dict_getitem.
  cbn [first_vis bind]. rewrite (dict_contains_find color_map _ H), H.
  cbn [bind].
  destruct (dict_find color_map (r_vis r)) as [c |]; cbn [bind].
  - reflexivity.
  - destruct fig as [d l]. cbn. now rewrite app_nil_r.
Qed.

Lemma add_segment_traces_layers (segs : list (list row)) :
  forall fig,
    Forall (fun seg => seg <> []) segs ->
    Forall (Forall (fun r => hashable (r_vis r) = true)) segs ->
    add_segment_traces fig segs
    = Ret (mkFigure (data fig ++ line_layers segs) (fig_layout fig)).
Proof.
  induction segs as [| seg segs IH]; intros fig Hne Hhash.
  - destruct fig as [d l]. cbn. now rewrite app_nil_r.
  - inversion Hne as [| ? ? Hseg Hne']; subst.
    inversion Hhash as [| ? ? Hrows Hhash']; subst.
    destruct seg as [| r seg]; [now contradiction Hseg |].
    inversion Hrows as [| ? ? Hr _]; subst.
    cbn [add_segment_traces]. rewrite (@add_segment_trace_layer fig r seg Hr).
    cbn [bind]. rewrite (IH _ Hne' Hhash'). cbn [data fig_layout].
    unfold line_layers. cbn [flat_map]. now rewrite <- app_assoc.
Qed.

Lemma concat_Forall {A} (P : A -> Prop) (ls : list (list A)) :
  Forall P (List.concat ls) -> Forall (Forall P) ls.
Proof.
  induction ls as [| l ls IH]; intros H; [constructor |].
  cbn [List.concat] in H. apply Forall_app in H. destruct H as [Hl Hls].
  constructor; [exact Hl | now apply IH].
Qed.

Lemma split_segments_layers (df : list row) (fig : figure) :
  Forall (fun r => hashable (r_vis r) = true) df ->
  add_segment_traces fig (split_segments df)
  = Ret (mkFigure (data fig ++ line_layers (split_segments df)) (fig_layout fig)).
Proof.
  intros H. apply add_segment_traces_layers.
  - apply split_segments_nonempty.
  - apply concat_Forall. now rewrite split_segments_concat.
Qed.

(** *** The frame of an aligned buffer *)

Lemma track_frame_aligned (st : state) :
  aligned st -> track_frame (snapshot st) = Ret (track_rows st).
Proof.
  intros (H1 & H2 & _). unfold track_frame, snapshot, track_rows.
  cbn [col_lat col_lon col_vis]. rewrite H1, H2, !Nat.eqb_refl. reflexivity.
Qed.

Lemma rows_of_vis (c : track_columns) (r : row) :
  In r (rows_of c) -> In (r_vis r) (col_vis c).
Proof.
  unfold rows_of. intros H. apply in_map_iff in H.
  destruct H as ([[a b] v] & <- & Hin). cbn.
  now apply in_combine_r in Hin.
Qed.

Lemma deque_append_In {A} (d : deque A) (x y : A) :
  In y (items (deque_append d x)) -> In y (items d) \/ y = x.
Proof.
  unfold deque_append. cbn [items]. intros H.
  assert (Hin : In y (items d ++ [x])).
  { destruct (maxlen d <? _)%nat; [| exact H].
    destruct (items d ++ [x]); [exact H | now right]. }
  apply in_app_or in Hin. destruct Hin as [Hin | [<- | []]]; auto.
Qed.

Lemma hashable_track_append (st : state) (lat lon : float) (vis : pyval) :
  hashable_track st -> hashable vis = true ->
  hashable_track (track_append st lat lon vis).
Proof.
  unfold hashable_track. intros Hst Hvis. apply Forall_forall.
  intros v Hv. cbn [track_append TRACK_VIS] in Hv.
  apply deque_append_In in Hv. destruct Hv as [Hv | ->]; [| exact Hvis].
  rewrite Forall_forall in Hst. now apply Hst.
Qed.

Lemma hashable_track_rows (st : state) :
  hashable_track st ->
  Forall (fun r => hashable (r_vis r) = true) (track_rows st).
Proof.
  unfold hashable_track. intros H. apply Forall_forall. intros r Hr.
  rewrite Forall_forall in H. apply H.
  apply rows_of_vis in Hr. exact Hr.
Qed.

Lemma legend_html_returns : exists legend, legend_html = Ret legend.
Proof. eexists. reflexivity. Qed.

(** The scene of an aligned buffer of hashable visibilities. *)
Lemma render_returns (rt : runtime) (w : world) (s : sample)
      (country_name : string) (st : state) :
  aligned st -> hashable_track st -> hashable (s_vis s) = true ->
  exists out,
    render rt w s country_name st = Ret out /\
    data (iss_map out)
    = line_layers (split_segments (track_rows st))
      ++ [main_marker (s_lat s) (s_lon s);
          inset_marker (s_lat s) (s_lon s)
            match dict_find color_map (s_vis s) with
            | Some c => c
            | None => "#FFFFFF"
            end] /\
    track_store out = snapshot st.
Proof.
  intros Hal Hst Hvis. unfold render.
  rewrite (track_frame_aligned Hal). cbn [bind].
  rewrite (split_segments_layers Figure (hashable_track_rows Hst)).
  cbn [bind]. unfold dict_get. rewrite Hvis. cbn [bind].
  destruct legend_html_returns as [legend ->]. cbn [bind].
  eexists. split; [reflexivity |]. split; [| reflexivity].
  cbn. now rewrite <- app_assoc.
Qed.

Section Scene.
Variable rt : runtime.
Variable w : world.
Variable n_intervals : Z.
Variable track_data : track_columns.
Variable st : state.
Variable df : DataFrame.
Variable s : sample.
Variables country_name country_color : string.

Hypothesis st_aligned : aligned st.
Hypothesis st_hashable : hashable_track st.
Hypothesis fetched : get_iss_telemetry (telemetry w) = Ret (Some df).
Hypothesis sampled : read_sample rt df = Ret s.
Hypothesis located :
  country_lookup rt (coordinates w (s_lat s) (s_lon s))
  = Ret (country_name, country_color).
Hypothesis vis_hashable : hashable (s_vis s) = true.

Local Abbreviation st' := (track_append st (s_lat s) (s_lon s) (s_vis s)).

(** A tick with a sample of hashable visibility returns, and its figure is
    the line layers of the segments followed by the two markers. *)
Lemma update_map_returns :
  exists out,
    update_map rt w n_intervals track_data st = (Ret out, st') /\
    data (iss_map out)
    = line_layers (split_segments (track_rows st'))
      ++ [main_marker (s_lat s) (s_lon s);
          inset_marker (s_lat s) (s_lon s) (inset_color (s_vis s))] /\
    track_store out = snapshot st'.
Proof.
  assert (Hal : aligned st') by now apply aligned_track_append.
  assert (Hha : hashable_track st') by now apply hashable_track_append.
  destruct (render_returns rt w s country_name Hal Hha vis_hashable)
    as (out & Hrender & Hdata & Hstore).
  exists out. split; [| split; assumption].
  unfold update_map. rewrite fetched, sampled, located.
  now rewrite Hrender.
Qed.

(** C10. Whatever the visibility of the current sample, one of the three
    categories or not, the tick returns and its figure ends with the two
    markers, both at the coordinates of the sample: the main marker, a
    text trace showing the glyph at size 28 on the main map, and the inset
    marker, a dot of size 8 on the inset globe; the inset marker has the
    colour of the style table for a known visibility and "#FFFFFF" for any
    other. *)
Theorem markers_for_every_visibility :
  exists out lines,
    update_map rt w n_intervals track_data st = (Ret out, st') /\
    data (iss_map out)
    = lines
      ++ [ {| lat := [s_lat s]; lon := [s_lon s]; mode := "text";
              line := None; text := ["🎅"]; textfont := Some 28%Z;
              marker := None; showlegend := false; geo := "geo" |};
           {| lat := [s_lat s]; lon := [s_lon s]; mode := "markers";
              line := None; text := []; textfont := None;
              marker := Some {| size := 8;
                                marker_color := inset_color (s_vis s) |};
              showlegend := false; geo := "geo2" |} ] /\
    main_marker (s_lat s) (s_lon s)
    = {| lat := [s_lat s]; lon := [s_lon s]; mode := "text";
         line := None; text := ["🎅"]; textfont := Some 28%Z;
         marker := None; showlegend := false; geo := "geo" |} /\
    (forall c,
        inset_marker (s_lat s) (s_lon s) c
        = {| lat := [s_lat s]; lon := [s_lon s]; mode := "markers";
             line := None; text := []; textfont := None;
             marker := Some {| size := 8; marker_color := c |};
             showlegend := false; geo := "geo2" |}) /\
    (forall v c, s_vis s = PStr v -> assoc v color_map = Some c ->
                 inset_color (s_vis s) = c) /\
    (known (s_vis s) = true ->
     exists c, dict_find color_map (s_vis s) = Some c /\
               inset_color (s_vis s) = c) /\
    (known (s_vis s) = false -> inset_color (s_vis s) = "#FFFFFF").
Proof.
  destruct update_map_returns as (out & Hrun & Hdata & _).
  exists out, (line_layers (split_segments (track_rows st'))).
  split; [exact Hrun |]. split; [exact Hdata |].
  split; [reflexivity |]. split; [reflexivity |].
  unfold inset_color. rewrite known_find. split; [| split].
  - intros v c Hv Hc. rewrite Hv, dict_find_str, Hc. reflexivity.
  - destruct (dict_find color_map (s_vis s)) as [c |]; [| discriminate].
    intros _. now exists c.
  - destruct (dict_find color_map (s_vis s)) as [c |]; [discriminate |].
    reflexivity.
Qed.

Lemma layer_unknown (seg : list row) :
  segment_known seg = false -> layer seg = [].
Proof.
  destruct seg as [| r seg]; [reflexivity |]. cbn [segment_known layer].
  rewrite known_find. now destruct (dict_find color_map (r_vis r)).
Qed.

Lemma line_layers_length (segs : list (list row)) :
  List.length (line_layers segs) = List.length (filter segment_known segs).
Proof.
  unfold line_layers. induction segs as [| seg segs IH]; [reflexivity |].
  cbn [flat_map filter]. rewrite length_app, IH.
  destruct seg as [| r seg]; [reflexivity |]. cbn [segment_known layer].
  rewrite known_find. now destruct (dict_find color_map (r_vis r)).
Qed.

Lemma line_layers_known (segs : list (list row)) (t : trace) :
  In t (line_layers segs) ->
  exists seg c, In seg segs /\ segment_known seg = true /\ t = line_trace seg c.
Proof.
  unfold line_layers. intros H. apply in_flat_map in H.
  destruct H as (seg & Hseg & Ht). exists seg.
  destruct seg as [| r seg]; [destruct Ht |]. cbn [layer segment_known] in *.
  rewrite known_find.
  destruct (dict_find color_map (r_vis r)) as [c |]; [| destruct Ht].
  destruct Ht as [<- | []]. now exists c.
Qed.

(** C6. A segment whose visibility is none of the three categories gets
    no line layer and raises nothing: the turn of the loop leaves the
    figure as it was, the line layers of the figure are those of the
    segments of known visibility, one each, and every sample of every
    segment, the dropped ones too, is still in the buffer, in the segment
    list and in the store value. *)
Theorem unknown_visibility_dropped :
  exists out,
    update_map rt w n_intervals track_data st = (Ret out, st') /\
    data (iss_map out)
    = line_layers (split_segments (track_rows st'))
      ++ [main_marker (s_lat s) (s_lon s);
          inset_marker (s_lat s) (s_lon s) (inset_color (s_vis s))] /\
    (forall seg,
        In seg (split_segments (track_rows st')) ->
        segment_known seg = false ->
        layer seg = [] /\
        (forall fig, add_segment_trace fig seg = Ret fig) /\
        (forall r, In r seg -> In r (track_rows st'))) /\
    (forall t,
        In t (line_layers (split_segments (track_rows st'))) ->
        exists seg c,
          In seg (split_segments (track_rows st')) /\
          segment_known seg = true /\ t = line_trace seg c) /\
    List.length (line_layers (split_segments (track_rows st')))
    = List.length (filter segment_known (split_segments (track_rows st'))) /\
    List.concat (split_segments (track_rows st')) = track_rows st' /\
    track_store out = snapshot st'.
Proof.
  destruct update_map_returns as (out & Hrun & Hdata & Hstore).
  exists out. split; [exact Hrun |]. split; [exact Hdata |].
  split; [| split; [| split; [| split]]].
  - intros seg Hseg Hunknown.
    assert (Hin : forall r, In r seg -> In r (track_rows st')).
    { intros r Hr. rewrite <- (split_segments_concat (track_rows st')).
      apply in_concat. now exists seg. }
    split; [now apply layer_unknown |]. split; [| exact Hin].
    intros fig. destruct seg as [| r seg].
    + pose proof (split_segments_nonempty (track_rows st')) as Hne.
      rewrite Forall_forall in Hne. now contradiction (Hne [] Hseg).
    + assert (Hr : hashable (r_vis r) = true).
      { pose proof (hashable_track_rows
                      (@hashable_track_append st (s_lat s) (s_lon s) (s_vis s)
                         st_hashable vis_hashable)) as Hall.
        rewrite Forall_forall in Hall. apply Hall. apply Hin. now left. }
      rewrite (@add_segment_trace_layer fig r seg Hr).
      rewrite (layer_unknown _ Hunknown). destruct fig as [d l]. cbn.
      now rewrite app_nil_r.
  - intros t. apply line_layers_known.
  - apply line_layers_length.
  - apply split_segments_concat.
  - exact Hstore.
Qed.

End Scene.

(** ** The properties on a concrete track *)

Lemma split_segments_partition_witness :
  List.concat (split_segments demo_rows) = demo_rows /\
  Forall (fun seg => seg <> []) (split_segments demo_rows) /\
  Forall homogeneous (split_segments demo_rows) /\
  adjacent_differ (split_segments demo_rows).
Proof.
  destruct (split_segments_partition demo_rows)
    as (Hcat & Hne & _ & _ & _ & Hruns).
  destruct Hruns as [Hhom Hadj].
  - repeat constructor.
  - repeat split; assumption.
Defined.

Lemma split_segments_deterministic_witness :
  split_run demo_rows (split_segments demo_rows) /\
  (forall r, split_run demo_rows r ->
             r = [[mkRow 50 (-3) (PStr "daylight")];
                  [mkRow 50.5 (-2) (PStr "mystery");
                   mkRow 51 (-1) (PStr "mystery")];
                  [mkRow 51.25 (-0.5) (PStr "visible")]]).
Proof.
  destruct (split_segments_deterministic demo_rows) as (Hrun & _ & Huniq).
  split; [exact Hrun |]. intros r Hr. exact (Huniq r Hr).
Defined.

Lemma fetch_failure_no_update_witness :
  update_map demo_runtime failing_world 7 demo_store demo_state
  = (Raise PreventUpdate, demo_state).
Proof.
  apply fetch_failure_no_update. reflexivity.
Defined.

Lemma readouts_two_decimals_witness :
  exists out st',
    update_map demo_runtime (demo_world demo_telemetry "US") 0 demo_store
               demo_state = (Ret out, st') /\
    readouts out = ["51.50"; "-0.12"; "420.25"; "27580.00"].
Proof.
  destruct (update_map demo_runtime (demo_world demo_telemetry "US") 0
                       demo_store demo_state) as [[out | e] st'] eqn:Hrun;
    [| vm_compute in Hrun; discriminate Hrun].
  exists out, st'. split; [reflexivity |].
  destruct (proj1 (readouts_two_decimals demo_runtime
                     (demo_world demo_telemetry "US") 0 demo_store demo_state)
                  out st' Hrun) as (df & s & Hfetch & Hread & Hout & _).
  vm_compute in Hfetch. injection Hfetch as <-.
  vm_compute in Hread. injection Hread as <-.
  rewrite Hout. vm_compute. reflexivity.
Defined.

Lemma markers_for_every_visibility_witness :
  exists out lines,
    update_map demo_runtime
               (demo_world (demo_telemetry_with (PStr "mystery")) "US") 0
               demo_store demo_state
    = (Ret out, track_append demo_state 51.5 (-0.125) (PStr "mystery")) /\
    data (iss_map out)
    = lines
      ++ [ {| lat := [51.5%float]; lon := [(-0.125)%float]; mode := "text";
              line := None; text := ["🎅"]; textfont := Some 28%Z;
              marker := None; showlegend := false; geo := "geo" |};
           {| lat := [51.5%float]; lon := [(-0.125)%float]; mode := "markers";
              line := None; text := []; textfont := None;
              marker := Some {| size := 8; marker_color := "#FFFFFF" |};
              showlegend := false; geo := "geo2" |} ].
Proof.
  edestruct (@markers_for_every_visibility demo_runtime
               (demo_world (demo_telemetry_with (PStr "mystery")) "US") 0
               demo_store demo_state)
    as (out & lines & Hrun & Hdata & _).
  - repeat split.
  - repeat constructor.
  - reflexivity.
  - reflexivity.
  - reflexivity.
  - reflexivity.
  - exists out, lines. split; [exact Hrun | exact Hdata].
Defined.

Lemma unknown_visibility_dropped_witness :
  exists out,
    update_map demo_runtime (demo_world demo_telemetry "US") 0 demo_store
               demo_state
    = (Ret out, track_append demo_state 51.5 (-0.125) (PStr "daylight")) /\
    List.length (data (iss_map out)) = 5 /\
    (forall fig,
        add_segment_trace fig [mkRow 50.5 (-2) (PStr "mystery");
                               mkRow 51 (-1) (PStr "mystery")] = Ret fig) /\
    track_store out
    = snapshot (track_append demo_state 51.5 (-0.125) (PStr "daylight")).
Proof.
  edestruct (@unknown_visibility_dropped demo_runtime
               (demo_world demo_telemetry "US") 0 demo_store demo_state)
    as (out & Hrun & Hdata & Hdrop & _ & Hlen & _ & Hstore).
  - repeat split.
  - repeat constructor.
  - reflexivity.
  - reflexivity.
  - reflexivity.
  - reflexivity.
  - exists out. split; [exact Hrun |]. split; [| split; [| exact Hstore]].
    + rewrite Hdata, length_app, Hlen. reflexivity.
    + apply Hdrop; [| reflexivity]. right. left. reflexivity.
Defined.


Lemma country_lookup_outcomes_witness :
  country_lookup demo_runtime (RequestFails ReqTimeout) = Ret fallback /\
  country_lookup demo_runtime (demo_record [("country_code", PStr "??")])
  = Ret fallback /\
  country_lookup demo_runtime (demo_record [("country_code", PStr "jp")])
  = Ret ("Japan", "red") /\
  country_lookup demo_runtime (demo_record [("country_code", PStr "ZZ")])
  = Ret ("ZZ", "red").
Proof.
  destruct (country_lookup_outcomes demo_runtime)
    as (Hfail & _ & _ & Hnone & Hcode).
  split; [apply Hfail |].
  split; [apply (Hnone 200%Z _ (PStr "??")); [reflexivity | reflexivity | now right] |].
  split.
  - apply (Hcode 200%Z [("country_code", PStr "jp")] "jp");
      [reflexivity | reflexivity | discriminate | discriminate].
  - apply (Hcode 200%Z [("country_code", PStr "ZZ")] "ZZ");
      [reflexivity | reflexivity | discriminate | discriminate].
Defined.

Lemma update_map_ignores_store_witness :
  update_map demo_runtime (demo_world demo_telemetry "US") 3 demo_store
             demo_state
  = update_map demo_runtime (demo_world demo_telemetry "US") 3
               (mkColumns [1%float] [2%float] [PStr "stale"]) demo_state.
Proof.
  exact (proj1 (update_map_ignores_store demo_runtime
                  (demo_world demo_telemetry "US") 3 demo_store
                  (mkColumns [1%float] [2%float] [PStr "stale"]) demo_state)).
Defined.

(** * Further properties of the module *)

(** ** Outcomes of the telemetry fetch *)

Lemma get_iss_telemetry_request_fails (e : request_error) :
  get_iss_telemetry (RequestFails e)
  = match e with
    | ReqOther => Raise OtherRequestException
    | _ => Ret None
    end.
Proof. destruct e; reflexivity. Qed.

Lemma get_iss_telemetry_response (c : Z) (b : option pyval) :
  get_iss_telemetry (Response c b)
  = if error_status c then Ret None
    else match b with
         | Some data =>
             Ret (Some (drop dropped_columns (DataFrame_of_record data)))
         | None => Raise JSONDecodeError
         end.
Proof.
  destruct (error_status c) eqn:H.
  - now apply get_iss_telemetry_error_status.
  - destruct b as [data |].
    + now apply get_iss_telemetry_json.
    + now apply get_iss_telemetry_uncaught.
Qed.

(** X1. Every answer to the telemetry request falls in exactly one of three
    cases: the fetch returns [None] on a timeout, a connection failure or
    a 4xx/5xx status and only then; it returns a frame on a JSON body
    under any other status and only then; and it raises only for a body
    that is not JSON under a non-error status (JSONDecodeError) and for a
    request exception other than a timeout or a connection failure. *)
Theorem get_iss_telemetry_classified (r : http_result) :
  (get_iss_telemetry r = Ret None <->
   r = RequestFails ReqTimeout \/ r = RequestFails ReqConnectionError \/
   exists c b, r = Response c b /\ error_status c = true) /\
  (forall df,
      get_iss_telemetry r = Ret (Some df) <->
      exists c data,
        r = Response c (Some data) /\ error_status c = false /\
        df = drop dropped_columns (DataFrame_of_record data)) /\
  (forall e,
      get_iss_telemetry r = Raise e <->
      (r = RequestFails ReqOther /\ e = OtherRequestException) \/
      (exists c, r = Response c None /\ error_status c = false /\
                 e = JSONDecodeError)).
Proof.
  destruct r as [e0 | c b].
  - rewrite get_iss_telemetry_request_fails. split; [| split].
    + split.
      * destruct e0; intros H; try discriminate H; auto.
      * intros [H | [H | (c & b & H & _)]]; try discriminate H;
          injection H as ->; reflexivity.
    + intros df. split.
      * destruct e0; discriminate.
      * intros (c & data & H & _). discriminate H.
    + intros e. split.
      * destruct e0; intros H; try discriminate H. injection H as <-. now left.
      * intros [[H ->] | (c & H & _)]; [| discriminate H].
        injection H as ->. reflexivity.
  - rewrite get_iss_telemetry_response. split; [| split].
    + split.
      * destruct (error_status c) eqn:Hc.
        -- intros _. right. right. now exists c, b.
        -- destruct b; discriminate.
      * intros [H | [H | (c' & b' & H & Hc)]]; try discriminate H.
        injection H as <- <-. now rewrite Hc.
    + intros df. split.
      * destruct (error_status c) eqn:Hc; [discriminate |].
        destruct b as [data |]; [| discriminate].
        intros H. injection H as <-. now exists c, data.
      * intros (c' & data & H & Hc & ->). injection H as <- ->.
        now rewrite Hc.
    + intros e. split.
      * destruct (error_status c) eqn:Hc; [discriminate |].
        destruct b as [data |]; [discriminate |].
        intros H. injection H as <-. right. now exists c.
      * intros [[H _] | (c' & H & Hc & ->)]; [discriminate H |].
        injection H as <- ->. now rewrite Hc.
Qed.

(** ** The frame of a fetched record *)

Lemma existsb_eqb_In (k : string) (cols : list string) :
  existsb (fun col => label_is col (LStr k)) cols = true <-> In k cols.
Proof.
  rewrite existsb_exists. split.
  - intros (col & Hin & Heq). cbn in Heq.
    apply String.eqb_eq in Heq. now subst.
  - intros Hin. exists k. split; [exact Hin |]. cbn. apply String.eqb_refl.
Qed.

Lemma cell_drop_dict (cols : list string) (kvs : list (string * pyval))
      (k : string) :
  (In k cols ->
   cell (drop cols (DataFrame_of_record (PDict kvs))) k = Raise (KeyError k)) /\
  (~ In k cols ->
   cell (drop cols (DataFrame_of_record (PDict kvs))) k
   = match assoc k kvs with
     | Some v => Ret v
     | None => Raise (KeyError k)
     end).
Proof.
  unfold cell, drop. cbn [DataFrame_of_record].
  induction kvs as [| [k' v] kvs [IHin IHout]]; [split; reflexivity |].
  cbn [map filter fst snd assoc].
  destruct (existsb (fun col => label_is col (LStr k')) cols) eqn:Hdrop;
    cbn [negb].
  - apply existsb_eqb_In in Hdrop. split; [exact IHin |].
    intros Hout. destruct (String.eqb_spec k k') as [-> | _];
      [now contradiction Hout | now apply IHout].
  - assert (Hkeep : ~ In k' cols).
    { intros Hin. apply existsb_eqb_In in Hin. congruence. }
    cbn [find fst label_is]. split.
    + intros Hin. destruct (String.eqb_spec k k') as [-> | _];
        [now contradiction Hkeep | now apply IHin].
    + intros Hout. destruct (String.eqb_spec k k') as [_ | _];
        [reflexivity | now apply IHout].
Qed.

(** X2. The frame fetched from a JSON object has none of the columns id,
    footprint, daynum, solar_lat and solar_lon (reading one raises
    KeyError), and every other key of the object is a column holding the
    object's value for it; a key the object lacks raises KeyError. *)
Theorem fetched_frame_columns (c : Z) (kvs : list (string * pyval)) :
  error_status c = false ->
  exists df,
    get_iss_telemetry (Response c (Some (PDict kvs))) = Ret (Some df) /\
    (forall k, In k dropped_columns -> cell df k = Raise (KeyError k)) /\
    (forall k, ~ In k dropped_columns ->
               cell df k = match assoc k kvs with
                           | Some v => Ret v
                           | None => Raise (KeyError k)
                           end).
Proof.
  intros Hc. eexists. split; [now apply get_iss_telemetry_json |].
  split; intros k Hk; now apply cell_drop_dict.
Qed.

Lemma fetched_frame_columns_witness :
  exists df,
    get_iss_telemetry (demo_record demo_telemetry) = Ret (Some df) /\
    cell df "footprint" = Raise (KeyError "footprint") /\
    cell df "units" = Ret (PStr "kilometers") /\
    cell df "timestamp" = Raise (KeyError "timestamp").
Proof.
  destruct (@fetched_frame_columns 200 demo_telemetry eq_refl)
    as (df & Hget & Hdropped & Hkept).
  exists df. split; [exact Hget |]. split; [| split].
  - apply Hdropped. cbn. tauto.
  - rewrite Hkept; [reflexivity |].
    cbn. intros [H | [H | [H | [H | [H | []]]]]]; discriminate H.
  - rewrite Hkept; [reflexivity |].
    cbn. intros [H | [H | [H | [H | [H | []]]]]]; discriminate H.
Defined.

(** X3. A JSON object whose latitude, longitude, altitude and velocity are
    values [float] accepts and which has a visibility is read as the
    sample of those five values, whatever other keys it carries and in
    whatever order: extra fields are ignored and the visibility is taken
    as it is. *)
Theorem record_read_back (rt : runtime) (c : Z) (kvs : list (string * pyval))
        (vlat vlon valt vvel vis : pyval) (lat lon alt vel : float) :
  error_status c = false ->
  assoc "latitude" kvs = Some vlat -> py_float (float_of_str rt) vlat = Ret lat ->
  assoc "longitude" kvs = Some vlon -> py_float (float_of_str rt) vlon = Ret lon ->
  assoc "altitude" kvs = Some valt -> py_float (float_of_str rt) valt = Ret alt ->
  assoc "velocity" kvs = Some vvel -> py_float (float_of_str rt) vvel = Ret vel ->
  assoc "visibility" kvs = Some vis ->
  exists df,
    get_iss_telemetry (Response c (Some (PDict kvs))) = Ret (Some df) /\
    read_sample rt df = Ret (mkSample lat lon alt vel vis).
Proof.
  intros Hc Hlat Flat Hlon Flon Halt Falt Hvel Fvel Hvis.
  eexists. split; [now apply get_iss_telemetry_json |].
  assert (Hcell : forall k,
             In k required_fields ->
             cell (drop dropped_columns (DataFrame_of_record (PDict kvs))) k
             = match assoc k kvs with
               | Some v => Ret v
               | None => Raise (KeyError k)
               end).
  { intros k Hk. apply cell_drop_dict.
    cbn in Hk. cbn.
    destruct Hk as [<- | [<- | [<- | [<- | [<- | []]]]]];
      intros [H | [H | [H | [H | [H | []]]]]]; discriminate H. }
  unfold read_sample.
  rewrite !Hcell by (cbn; tauto).
  rewrite Hlat, Hlon, Halt, Hvel, Hvis. cbn [bind].
  rewrite Flat, Flon, Falt, Fvel. reflexivity.
Qed.

Lemma record_read_back_witness :
  exists df,
    get_iss_telemetry (demo_record demo_telemetry) = Ret (Some df) /\
    read_sample demo_runtime df
    = Ret (mkSample 51.5 (-0.125) 420.25 27580 (PStr "daylight")).
Proof.
  apply (@record_read_back demo_runtime 200 demo_telemetry
           (PFloat 51.5) (PFloat (-0.125)) (PFloat 420.25) (PInt 27580));
    reflexivity.
Defined.

(** ** When the country lookup raises *)

Lemma py_ne_not_str (code : pyval) :
  is_str code = false -> py_ne code (PStr "??") = true.
Proof. destruct code; try reflexivity. discriminate. Qed.

(** The lookup evaluated on a response with a JSON body. *)
Lemma country_lookup_json (rt : runtime) (c : Z) (data : pyval) :
  error_status c = false ->
  country_lookup rt (Response c (Some data))
  = match data with
    | PDict kvs =>
        let code := match assoc "country_code" kvs with
                    | Some v => v
                    | None => PNone
                    end in
        if (py_truthy code && py_ne code (PStr "??"))%bool then
          match code with
          | PStr s => Ret (match countries_get rt (upper rt s) with
                           | Some name => name
                           | None => s
                           end, "red")
          | _ => Raise AttributeError
          end
        else Ret fallback
    | _ => Raise AttributeError
    end.
Proof.
  intros Hc. rewrite country_lookup_response by exact Hc.
  cbn [json body bind]. destruct data; try reflexivity.
  cbn [method_get bind].
  destruct (match assoc "country_code" kvs with Some v => v | None => PNone end)
    as [| b | z | f | s | xs | kvs'] eqn:Hcode; cbn zeta;
    match goal with
    | |- context [if ?t then _ else _] => destruct t
    end; reflexivity.
Qed.

Lemma country_lookup_error_status (rt : runtime) (c : Z) (b : option pyval) :
  error_status c = true -> country_lookup rt (Response c b) = Ret fallback.
Proof.
  intros H. unfold country_lookup, raise_for_status.
  cbn [requests_get bind status_code]. unfold error_status in H.
  now rewrite H.
Qed.

Lemma country_lookup_not_json (rt : runtime) (c : Z) :
  country_lookup rt (Response c None) = Ret fallback.
Proof.
  destruct (error_status c) eqn:H.
  - now apply country_lookup_error_status.
  - now rewrite country_lookup_response.
Qed.

Lemma country_lookup_cases (rt : runtime) (r : http_result) :
  (malformed_geocode r = true /\ country_lookup rt r = Raise AttributeError) \/
  (malformed_geocode r = false /\
   exists name, country_lookup rt r = Ret (name, "red")).
Proof.
  destruct r as [e | c [data |]].
  - right. split; [reflexivity |]. exists "Ocean". now destruct e.
  - destruct (error_status c) eqn:Hc.
    + right. split; [cbn; now rewrite Hc |]. exists "Ocean".
      now apply country_lookup_error_status.
    + rewrite (@country_lookup_json rt c data Hc). cbn [malformed_geocode].
      rewrite Hc. cbn [negb andb].
      destruct data as [| b | z | f | s | xs | kvs]; try (left; now split).
      cbn zeta.
      destruct (match assoc "country_code" kvs with Some v => v | None => PNone end)
        as [| b | z | f | s | xs | kvs'] eqn:Hcode;
        cbn [is_str negb].
      5: { rewrite andb_false_r. right. split; [reflexivity |].
           destruct (py_truthy (PStr s) && py_ne (PStr s) (PStr "??"))%bool;
             eexists; reflexivity. }
      all: rewrite py_ne_not_str by reflexivity;
        rewrite !andb_true_r;
        match goal with
        | |- context [py_truthy ?v] => destruct (py_truthy v)
        end;
        [left; now split | right; split; [reflexivity | now exists "Ocean"]].
  - right. split; [reflexivity |]. exists "Ocean".
    apply country_lookup_not_json.
Qed.

(** X4. The country lookup raises exactly when the coordinates request
    answers, under a non-error status, with a JSON body that is no object
    or whose country code is a truthy value other than a string; the
    exception is then AttributeError, never one of the request exceptions
    it absorbs.  In every other case it returns a label, and the colour it
    returns with it is always "red". *)
Theorem country_lookup_raises_iff (rt : runtime) (r : http_result) :
  (country_lookup rt r = Raise AttributeError <-> malformed_geocode r = true) /\
  (forall e, country_lookup rt r = Raise e -> e = AttributeError) /\
  (malformed_geocode r = false ->
   exists name, country_lookup rt r = Ret (name, "red")) /\
  (forall name colour,
      country_lookup rt r = Ret (name, colour) -> colour = "red").
Proof.
  destruct (country_lookup_cases rt r) as [[Hm Hl] | [Hm (name & Hl)]];
    rewrite Hl, Hm.
  - split; [split; reflexivity |]. split; [now intros e [= <-] |].
    split; [discriminate | discriminate].
  - split; [split; discriminate |]. split; [discriminate |].
    split; [intros _; now exists name |].
    now intros name' colour [= _ <-].
Qed.

Lemma country_lookup_raises_iff_witness :
  country_lookup demo_runtime (Response 200 (Some (PList [])))
  = Raise AttributeError /\
  country_lookup demo_runtime (demo_record [("country_code", PInt 7)])
  = Raise AttributeError /\
  exists name,
    country_lookup demo_runtime (demo_record [("country_code", PInt 0)])
    = Ret (name, "red").
Proof.
  split; [| split].
  - apply (proj1 (country_lookup_raises_iff demo_runtime _)). reflexivity.
  - apply (proj1 (country_lookup_raises_iff demo_runtime _)). reflexivity.
  - apply (proj1 (proj2 (proj2 (country_lookup_raises_iff demo_runtime _)))).
    reflexivity.
Defined.

(** ** Segments are maximal runs *)

Lemma walk_unbroken (rest : list row) :
  forall prev cur, unbroken prev rest -> walk prev cur rest = [cur ++ rest].
Proof.
  induction rest as [| x rest IH]; intros prev cur Hrun; cbn [walk].
  - now rewrite app_nil_r.
  - destruct Hrun as [Hx Hrun]. rewrite Hx.
    rewrite (IH _ _ Hrun). now rewrite <- app_assoc.
Qed.

Lemma walk_length (rest : list row) :
  forall prev cur, List.length (walk prev cur rest) = S (changes prev rest).
Proof.
  induction rest as [| x rest IH]; intros prev cur; cbn [walk changes].
  - reflexivity.
  - destruct (py_ne (r_vis x) prev); cbn [List.length]; now rewrite IH.
Qed.

(** X5. Segmenting is stable and counts the changes: on a track of string
    visibilities every segment that [split_segments] returns is itself
    split into that one segment, and a non-empty track is split into one
    segment more than it has positions whose visibility differs ([!=])
    from the one before. *)
Theorem split_segments_maximal (df : list row) :
  str_rows df ->
  (forall seg, In seg (split_segments df) -> split_segments seg = [seg]) /\
  List.length (split_segments df)
  = match df with
    | [] => 0
    | x :: rest => S (changes (r_vis x) rest)
    end.
Proof.
  intros _. split.
  - intros seg Hseg.
    pose proof (proj1 (split_segments_python_runs df)) as Hruns.
    rewrite Forall_forall in Hruns. specialize (Hruns seg Hseg).
    rewrite split_segments_segment.
    destruct seg as [| x rest]; [destruct Hruns |].
    cbn [segment]. now apply walk_unbroken.
  - rewrite split_segments_segment. destruct df as [| x rest]; [reflexivity |].
    apply walk_length.
Qed.

Lemma split_segments_maximal_witness :
  List.length (split_segments demo_rows) = 3 /\
  split_segments [mkRow 50.5 (-2) (PStr "mystery");
                  mkRow 51 (-1) (PStr "mystery")]
  = [[mkRow 50.5 (-2) (PStr "mystery"); mkRow 51 (-1) (PStr "mystery")]].
Proof.
  destruct (@split_segments_maximal demo_rows) as [Hstable Hcount].
  - repeat constructor.
  - split; [rewrite Hcount; reflexivity |].
    apply Hstable. right. left. reflexivity.
Defined.

(** ** What the line layers draw *)

Lemma is_str_hashable (v : pyval) : is_str v = true -> hashable v = true.
Proof. now destruct v. Qed.

Lemma filter_constant {A} (p : A -> bool) (b : bool) (l : list A) :
  (forall x, In x l -> p x = b) -> filter p l = if b then l else [].
Proof.
  induction l as [| x l IH]; intros H; [now destruct b |].
  cbn [filter]. rewrite (H x (or_introl eq_refl)).
  rewrite IH by (intros y Hy; apply H; now right).
  now destruct b.
Qed.

Lemma layer_points (seg : list row) :
  homogeneous seg ->
  flat_map lat (layer seg) = map r_lat (filter (fun r => known (r_vis r)) seg) /\
  flat_map lon (layer seg) = map r_lon (filter (fun r => known (r_vis r)) seg).
Proof.
  intros Hhom. destruct seg as [| r rest]; [split; reflexivity |].
  rewrite (@filter_constant _ (fun x => known (r_vis x)) (known (r_vis r))).
  - cbn [layer]. rewrite known_find.
    destruct (dict_find color_map (r_vis r)); cbn; now rewrite ?app_nil_r.
  - intros x Hx. f_equal. apply Hhom; [exact Hx | now left].
Qed.

Lemma line_layers_points (segs : list (list row)) :
  Forall homogeneous segs ->
  flat_map lat (line_layers segs)
  = map r_lat (filter (fun r => known (r_vis r)) (List.concat segs)) /\
  flat_map lon (line_layers segs)
  = map r_lon (filter (fun r => known (r_vis r)) (List.concat segs)).
Proof.
  unfold line_layers.
  induction segs as [| seg segs IH]; intros H; [split; reflexivity |].
  inversion H as [| ? ? Hseg Hsegs]; subst.
  destruct (IH Hsegs) as [IHlat IHlon].
  destruct (layer_points Hseg) as [Hlat Hlon].
  cbn [flat_map List.concat].
  rewrite !flat_map_app, filter_app, !map_app, IHlat, IHlon, Hlat, Hlon.
  split; reflexivity.
Qed.

Lemma layer_styled (seg : list row) (t : trace) :
  In t (layer seg) ->
  exists r rest c,
    seg = r :: rest /\ dict_find color_map (r_vis r) = Some c /\
    t = line_trace seg c.
Proof.
  destruct seg as [| r rest]; [intros [] |]. cbn [layer].
  destruct (dict_find color_map (r_vis r)) as [c |] eqn:Hfind; [| intros []].
  intros [<- | []]. exists r, rest, c. repeat split. exact Hfind.
Qed.

(** X6. On a track of string visibilities the loop over the segments
    raises nothing and adds, after the traces already in the figure, line
    traces that together hold exactly the samples of known visibility, in
    buffer order, each once (samples of another visibility are on no line,
    and no point is repeated to join two segments); each line is the line
    of one segment, in the colour the style table gives for the visibility
    all its samples share. *)
Theorem line_layers_draw_known (df : list row) (fig : figure) :
  str_rows df ->
  exists lines,
    add_segment_traces fig (split_segments df)
    = Ret (mkFigure (data fig ++ lines) (fig_layout fig)) /\
    flat_map lat lines = map r_lat (filter (fun r => known (r_vis r)) df) /\
    flat_map lon lines = map r_lon (filter (fun r => known (r_vis r)) df) /\
    Forall (fun t =>
              exists seg v c,
                In seg (split_segments df) /\
                Forall (fun r => r_vis r = PStr v) seg /\
                assoc v color_map = Some c /\
                t = line_trace seg c)
           lines.
Proof.
  intros Hstr. exists (line_layers (split_segments df)).
  destruct (split_segments_runs Hstr) as [Hhom _].
  destruct (line_layers_points Hhom) as [Hlat Hlon].
  rewrite split_segments_concat in Hlat, Hlon.
  split; [| split; [exact Hlat | split; [exact Hlon |]]].
  - apply split_segments_layers.
    apply Forall_forall. intros r Hr. apply is_str_hashable.
    unfold str_rows in Hstr. rewrite Forall_forall in Hstr. now apply Hstr.
  - apply Forall_forall. intros t Ht.
    unfold line_layers in Ht. apply in_flat_map in Ht.
    destruct Ht as (seg & Hseg & Ht).
    destruct (layer_styled _ _ Ht) as (r & rest & c & -> & Hfind & ->).
    assert (Hin : In r df).
    { rewrite <- (split_segments_concat df). apply in_concat.
      exists (r :: rest). split; [exact Hseg | now left]. }
    unfold str_rows in Hstr. rewrite Forall_forall in Hstr.
    pose proof (Hstr r Hin) as Hr.
    destruct (r_vis r) as [| | | | v | |] eqn:Hv; try discriminate Hr.
    exists (r :: rest), v, c. split; [exact Hseg |].
    split; [| split; [now rewrite <- dict_find_str | reflexivity]].
    apply Forall_forall. intros x Hx. rewrite <- Hv.
    rewrite Forall_forall in Hhom. apply (Hhom _ Hseg); [exact Hx | now left].
Qed.

Lemma line_layers_draw_known_witness :
  exists lines,
    add_segment_traces Figure (split_segments demo_rows)
    = Ret (mkFigure lines None) /\
    flat_map lat lines = [50%float; 51.25%float] /\
    flat_map lon lines = [(-3)%float; (-0.5)%float].
Proof.
  destruct (@line_layers_draw_known demo_rows Figure)
    as (lines & Hrun & Hlat & Hlon & _).
  - repeat constructor.
  - exists lines. split; [exact Hrun |]. split; [exact Hlat | exact Hlon].
Defined.

(** ** A visibility that cannot be looked up *)

Lemma py_eq_hashable (a b : pyval) :
  py_eq a b = true -> hashable a = hashable b.
Proof.
  destruct a, b; try reflexivity; cbn [py_eq]; intros H; discriminate H.
Qed.

Lemma unbroken_unhashable (seg : list row) :
  forall prev,
    unbroken prev seg ->
    Exists (fun r => hashable (r_vis r) = false) seg ->
    hashable prev = false.
Proof.
  induction seg as [| x seg IH]; intros prev Hrun Hex.
  - inversion Hex.
  - destruct Hrun as [Hx Hrun].
    assert (Heq : hashable (r_vis x) = hashable prev).
    { apply py_eq_hashable. unfold py_ne in Hx.
      now destruct (py_eq (r_vis x) prev). }
    rewrite <- Heq.
    inversion Hex as [? ? Hhere | ? ? Hthere]; subst; [exact Hhere |].
    now apply (IH (r_vis x)).
Qed.

Lemma python_run_first_unhashable (seg : list row) :
  python_run seg ->
  Exists (fun r => hashable (r_vis r) = false) seg ->
  first_unhashable seg = true.
Proof.
  destruct seg as [| x rest]; [intros [] |]. intros Hrun Hex.
  cbn [first_unhashable].
  inversion Hex as [? ? Hhere | ? ? Hthere]; subst.
  - now rewrite Hhere.
  - now rewrite (unbroken_unhashable _ Hrun Hthere).
Qed.

Lemma add_segment_trace_unhashable (fig : figure) (r : row) (seg : list row) :
  hashable (r_vis r) = false ->
  add_segment_trace fig (r :: seg) = Raise TypeError.
Proof.
  intros H. unfold add_segment_trace, dict_contains.
  cbn [first_vis bind]. now rewrite H.
Qed.

Lemma add_segment_traces_outcome (segs : list (list row)) :
  Forall (fun seg => seg <> []) segs ->
  forall fig,
    (exists fig', add_segment_traces fig segs = Ret fig') \/
    add_segment_traces fig segs = Raise TypeError.
Proof.
  induction segs as [| seg segs IH]; intros Hne fig.
  - left. now exists fig.
  - inversion Hne as [| ? ? Hseg Hne']; subst.
    destruct seg as [| r seg]; [now contradiction Hseg |].
    cbn [add_segment_traces].
    destruct (hashable (r_vis r)) eqn:Hr.
    + rewrite (@add_segment_trace_layer fig r seg Hr). cbn [bind].
      apply (IH Hne').
    + rewrite (@add_segment_trace_unhashable fig r seg Hr). now right.
Qed.

Lemma add_segment_traces_poisoned (segs : list (list row)) :
  Forall (fun seg => seg <> []) segs ->
  Exists (fun seg => first_unhashable seg = true) segs ->
  forall fig, add_segment_traces fig segs = Raise TypeError.
Proof.
  induction segs as [| seg segs IH]; intros Hne Hex fig.
  - inversion Hex.
  - inversion Hne as [| ? ? Hseg Hne']; subst.
    destruct seg as [| r seg]; [now contradiction Hseg |].
    cbn [add_segment_traces].
    destruct (hashable (r_vis r)) eqn:Hr.
    + rewrite (@add_segment_trace_layer fig r seg Hr). cbn [bind].
      apply (IH Hne').
      inversion Hex as [? ? Hhere | ? ? Hthere]; subst; [| exact Hthere].
      cbn [first_unhashable] in Hhere. rewrite Hr in Hhere. discriminate.
    + now rewrite (@add_segment_trace_unhashable fig r seg Hr).
Qed.

Lemma Exists_concat {A} (P : A -> Prop) (ls : list (list A)) :
  Exists P (List.concat ls) -> Exists (Exists P) ls.
Proof.
  induction ls as [| l ls IH]; intros H; [inversion H |].
  cbn [List.concat] in H. apply Exists_app in H. destruct H as [H | H].
  - now constructor.
  - constructor 2. now apply IH.
Qed.

(** One unhashable visibility anywhere in the frame stops the loop over
    the segments. *)
Lemma split_segments_poisoned (df : list row) (fig : figure) :
  Exists (fun r => hashable (r_vis r) = false) df ->
  add_segment_traces fig (split_segments df) = Raise TypeError.
Proof.
  intros Hex. apply add_segment_traces_poisoned.
  - apply split_segments_nonempty.
  - rewrite <- (split_segments_concat df) in Hex.
    apply Exists_concat in Hex.
    pose proof (proj1 (split_segments_python_runs df)) as Hruns.
    rewrite Forall_forall in Hruns.
    apply Exists_exists in Hex. destruct Hex as (seg & Hseg & Hbad).
    apply Exists_exists. exists seg. split; [exact Hseg |].
    apply python_run_first_unhashable; [now apply Hruns | exact Hbad].
Qed.

Lemma rows_of_vis_column (la lo : list float) (lv : list pyval) :
  List.length la = List.length lv -> List.length lo = List.length lv ->
  map r_vis (rows_of (mkColumns la lo lv)) = lv /\
  map r_lat (rows_of (mkColumns la lo lv)) = la /\
  map r_lon (rows_of (mkColumns la lo lv)) = lo.
Proof.
  unfold rows_of. cbn [col_lat col_lon col_vis].
  revert la lo. induction lv as [| v lv IH]; intros la lo Ha Ho.
  - destruct la; [| discriminate]. destruct lo; [| discriminate].
    repeat split.
  - destruct la as [| a la]; [discriminate |].
    destruct lo as [| o lo]; [discriminate |].
    cbn in Ha, Ho. injection Ha as Ha. injection Ho as Ho.
    destruct (IH la lo Ha Ho) as (Hv & Hla & Hlo).
    cbn. now rewrite Hv, Hla, Hlo.
Qed.

Lemma track_rows_columns (st : state) :
  aligned st ->
  map r_vis (track_rows st) = items (TRACK_VIS st) /\
  map r_lat (track_rows st) = items (TRACK_LAT st) /\
  map r_lon (track_rows st) = items (TRACK_LON st).
Proof.
  intros (H1 & H2 & _). unfold track_rows, snapshot.
  now apply rows_of_vis_column.
Qed.

Lemma poisoned_rows (st : state) :
  aligned st -> poisoned st ->
  Exists (fun r => hashable (r_vis r) = false) (track_rows st).
Proof.
  intros Hal Hp. unfold poisoned in Hp.
  rewrite <- (proj1 (track_rows_columns Hal)) in Hp.
  apply Exists_exists in Hp. destruct Hp as (v & Hv & Hbad).
  apply in_map_iff in Hv. destruct Hv as (r & <- & Hr).
  apply Exists_exists. now exists r.
Qed.

Lemma render_poisoned (rt : runtime) (w : world) (s : sample)
      (country_name : string) (st : state) :
  aligned st -> poisoned st ->
  render rt w s country_name st = Raise TypeError.
Proof.
  intros Hal Hp. unfold render.
  rewrite (track_frame_aligned Hal). cbn [bind].
  now rewrite (split_segments_poisoned Figure (poisoned_rows Hal Hp)).
Qed.

Lemma render_outcome (rt : runtime) (w : world) (s : sample)
      (country_name : string) (st : state) :
  aligned st ->
  (exists out, render rt w s country_name st = Ret out) \/
  render rt w s country_name st = Raise TypeError.
Proof.
  intros Hal. unfold render.
  rewrite (track_frame_aligned Hal). cbn [bind].
  destruct (add_segment_traces_outcome
              (split_segments_nonempty (track_rows st)) Figure)
    as [[fig' ->] | ->]; [| now right].
  cbn [bind]. unfold dict_get.
  destruct (hashable (s_vis s)); [| now right]. cbn [bind].
  destruct legend_html_returns as [legend ->]. cbn [bind].
  left. eexists. reflexivity.
Qed.

Lemma deque_append_last {A} (d : deque A) (x : A) :
  0 < maxlen d -> exists pre, items (deque_append d x) = pre ++ [x].
Proof.
  intros Hm. unfold deque_append. cbn [items].
  destruct (maxlen d <? List.length (items d ++ [x]))%nat eqn:Hfull.
  - destruct (items d) as [| y l].
    + apply Nat.ltb_lt in Hfull. cbn in Hfull. lia.
    + now exists l.
  - now exists (items d).
Qed.

Section Poison.
Variable rt : runtime.
Variable w : world.
Variable n_intervals : Z.
Variable track_data : track_columns.
Variable st : state.
Variable df : DataFrame.
Variable s : sample.
Variables country_name country_color : string.

Hypothesis st_aligned : aligned st.
Hypothesis fetched : get_iss_telemetry (telemetry w) = Ret (Some df).
Hypothesis sampled : read_sample rt df = Ret s.
Hypothesis located :
  country_lookup rt (coordinates w (s_lat s) (s_lon s))
  = Ret (country_name, country_color).

Local Abbreviation st' := (track_append st (s_lat s) (s_lon s) (s_vis s)).

Lemma update_map_reaches_render :
  update_map rt w n_intervals track_data st
  = (render rt w s country_name st', st').
Proof. unfold update_map. now rewrite fetched, sampled, located. Qed.

Lemma sample_in_buffer :
  exists pre, items (TRACK_VIS st') = pre ++ [s_vis s].
Proof.
  cbn [track_append TRACK_VIS]. apply deque_append_last.
  destruct st_aligned as (_ & _ & _ & _ & ->). unfold MAX_POINTS. lia.
Qed.

(** X7. With a buffer of string visibilities, a sample whose visibility
    is a JSON array or object is appended to the three deques all the
    same, and the tick then raises TypeError at the style look-up: the
    tick has no figure, but the buffer now ends with that sample. *)
Theorem unhashable_sample_appended :
  Forall (fun v => is_str v = true) (items (TRACK_VIS st)) ->
  hashable (s_vis s) = false ->
  update_map rt w n_intervals track_data st = (Raise TypeError, st') /\
  (exists pre, items (TRACK_VIS st') = pre ++ [s_vis s]) /\
  poisoned st'.
Proof.
  intros _ Hbad. destruct sample_in_buffer as [pre Hpre].
  assert (Hp : poisoned st').
  { unfold poisoned. rewrite Hpre. apply Exists_app. right. now constructor. }
  split; [| split; [now exists pre | exact Hp]].
  rewrite update_map_reaches_render. f_equal.
  apply render_poisoned; [now apply aligned_track_append | exact Hp].
Qed.

(** X8. When every visibility in the buffer is a string, a list or a
    dictionary, then while a list or dictionary is among them every tick
    that gets as far as rendering raises TypeError, whatever its own
    sample is; and as long as the buffer is not full, appending evicts
    nothing, so the buffer stays in that condition. *)
Theorem poisoned_buffer_raises :
  plain_track st' ->
  (poisoned st' ->
   update_map rt w n_intervals track_data st = (Raise TypeError, st')) /\
  (poisoned st -> List.length (items (TRACK_VIS st)) < MAX_POINTS ->
   poisoned st').
Proof.
  intros _. split.
  - intros Hp. rewrite update_map_reaches_render. f_equal.
    apply render_poisoned; [now apply aligned_track_append | exact Hp].
  - intros Hp Hroom. unfold poisoned. cbn [track_append TRACK_VIS].
    rewrite deque_append_items.
    + rewrite lastn_all.
      * apply Exists_app. now left.
      * rewrite length_app. cbn [List.length].
        destruct st_aligned as (_ & _ & _ & _ & ->). lia.
    + destruct st_aligned as (_ & _ & _ & _ & ->). lia.
Qed.

End Poison.

Lemma unhashable_sample_appended_witness :
  update_map demo_runtime (demo_world (demo_telemetry_with (PList [])) "US")
             0 demo_store demo_state
  = (Raise TypeError, track_append demo_state 51.5 (-0.125) (PList [])).
Proof.
  apply (@unhashable_sample_appended demo_runtime
           (demo_world (demo_telemetry_with (PList [])) "US") 0 demo_store
           demo_state
           (drop dropped_columns
              (DataFrame_of_record (PDict (demo_telemetry_with (PList [])))))
           (mkSample 51.5 (-0.125) 420.25 27580 (PList []))
           "United States" "red").
  - repeat split.
  - reflexivity.
  - reflexivity.
  - reflexivity.
  - repeat constructor.
  - reflexivity.
Defined.

Lemma poisoned_buffer_raises_witness :
  update_map demo_runtime (demo_world demo_telemetry "US") 1 demo_store
             (track_append demo_state 51.5 (-0.125) (PList []))
  = (Raise TypeError,
     track_append (track_append demo_state 51.5 (-0.125) (PList []))
                  51.5 (-0.125) (PStr "daylight")).
Proof.
  apply (@poisoned_buffer_raises demo_runtime
           (demo_world demo_telemetry "US") 1 demo_store
           (track_append demo_state 51.5 (-0.125) (PList []))
           (drop dropped_columns (DataFrame_of_record (PDict demo_telemetry)))
           (mkSample 51.5 (-0.125) 420.25 27580 (PStr "daylight"))
           "United States" "red").
  - repeat split.
  - reflexivity.
  - reflexivity.
  - reflexivity.
  - repeat constructor.
  - apply Exists_exists. exists (PList []).
    split; [cbn; auto 10 | reflexivity].
Defined.

(** ** The exceptions of a tick *)

Lemma cell_raise (df : DataFrame) (k : string) (e : exn) :
  cell df k = Raise e -> e = KeyError k.
Proof.
  unfold cell. destruct (find _ df); [discriminate |]. now intros [= <-].
Qed.

Lemma py_float_raise (f : string -> option float) (v : pyval) (e : exn) :
  py_float f v = Raise e -> e = TypeError \/ e = ValueError \/ e = OverflowError.
Proof.
  destruct v as [| b | z | x | s | xs | kvs]; cbn [py_float];
    unfold float_of_int.
  - intros [= <-]. auto.
  - destruct (is_infinity _); [intros [= <-]; auto | discriminate].
  - destruct (is_infinity _); [intros [= <-]; auto | discriminate].
  - discriminate.
  - destruct (f s); [discriminate | intros [= <-]; auto].
  - intros [= <-]. auto.
  - intros [= <-]. auto.
Qed.

Lemma field_raise (rt : runtime) (df : DataFrame) (k : string) (e : exn) :
  In k required_fields ->
  bind (cell df k) (py_float (float_of_str rt)) = Raise e -> tick_exception e.
Proof.
  intros Hk H. destruct (cell df k) as [v |] eqn:Hcell; cbn [bind] in H.
  - apply py_float_raise in H. destruct H as [-> | [-> | ->]]; exact I.
  - injection H as <-. apply cell_raise in Hcell. subst. exact Hk.
Qed.

Lemma read_sample_raise (rt : runtime) (df : DataFrame) (e : exn) :
  read_sample rt df = Raise e -> tick_exception e.
Proof.
  unfold read_sample. intros H.
  destruct (bind (cell df "latitude") _) as [lat |] eqn:Elat;
    [| injection H as <-; apply (@field_raise rt df "latitude" _);
       [cbn; tauto | exact Elat]].
  destruct (bind (cell df "longitude") _) as [lon |] eqn:Elon;
    [| injection H as <-; apply (@field_raise rt df "longitude" _);
       [cbn; tauto | exact Elon]].
  destruct (bind (cell df "altitude") _) as [alt |] eqn:Ealt;
    [| injection H as <-; apply (@field_raise rt df "altitude" _);
       [cbn; tauto | exact Ealt]].
  destruct (bind (cell df "velocity") _) as [vel |] eqn:Evel;
    [| injection H as <-; apply (@field_raise rt df "velocity" _);
       [cbn; tauto | exact Evel]].
  destruct (cell df "visibility") as [vis |] eqn:Evis; [discriminate |].
  injection H as <-. apply cell_raise in Evis. subst. cbn. tauto.
Qed.

Lemma get_iss_telemetry_raise (r : http_result) (e : exn) :
  get_iss_telemetry r = Raise e -> tick_exception e.
Proof.
  destruct r as [e0 | c b].
  - rewrite get_iss_telemetry_request_fails.
    destruct e0; try discriminate. now intros [= <-].
  - rewrite get_iss_telemetry_response.
    destruct (error_status c); [discriminate |].
    destruct b; [discriminate |]. now intros [= <-].
Qed.

Lemma hashable_or_poisoned (st : state) :
  hashable_track st \/ poisoned st.
Proof.
  unfold hashable_track, poisoned.
  induction (items (TRACK_VIS st)) as [| v l IH]; [left; constructor |].
  destruct (hashable v) eqn:Hv.
  - destruct IH as [IH | IH]; [left; now constructor | right; now constructor 2].
  - right. now constructor.
Qed.

(** X9. A tick started with aligned deques whose visibilities are
    strings, lists or dictionaries, and whose fetched record has such a
    visibility, lets out only PreventUpdate (no sample), JSONDecodeError
    or another request exception (fetch), KeyError for one of the five
    fields it reads, TypeError, ValueError, OverflowError (reading the
    sample, or the style look-up) and AttributeError (country lookup):
    never a timeout, connection or HTTP error, never an IndexError.  When
    it raises, the deques are as they were, except in one case: the
    TypeError of rendering, raised after the sample was appended to a
    buffer that holds an unhashable visibility. *)
Theorem tick_raise_effects (rt : runtime) (w : world) (n_intervals : Z)
        (td : track_columns) (st st1 : state) (e : exn) :
  aligned st ->
  plain_track st ->
  (forall df v,
      get_iss_telemetry (telemetry w) = Ret (Some df) ->
      cell df "visibility" = Ret v -> plain_cell v = true) ->
  update_map rt w n_intervals td st = (Raise e, st1) ->
  tick_exception e /\
  (st1 = st \/
   e = TypeError /\
   exists s, st1 = track_append st (s_lat s) (s_lon s) (s_vis s) /\
             poisoned st1).
Proof.
  intros Hal _ _. unfold update_map.
  destruct (get_iss_telemetry (telemetry w)) as [[df |] | e0] eqn:Hfetch.
  - destruct (read_sample rt df) as [s | e1] eqn:Hread.
    + destruct (country_lookup rt _) as [[name colour] | e2] eqn:Hgeo.
      * intros [= Hrender <-].
        pose proof (aligned_track_append (s_lat s) (s_lon s) (s_vis s) Hal)
          as Hal'.
        destruct (render_outcome rt w s name Hal') as [[out Hout] | Hraise];
          [congruence |].
        rewrite Hraise in Hrender. injection Hrender as <-.
        split; [exact I |]. right. split; [reflexivity |]. exists s.
        split; [reflexivity |].
        destruct (hashable_or_poisoned
                    (track_append st (s_lat s) (s_lon s) (s_vis s)))
          as [Hh | Hp]; [| exact Hp].
        exfalso.
        assert (Hvis : hashable (s_vis s) = true).
        { unfold hashable_track in Hh. rewrite Forall_forall in Hh. apply Hh.
          cbn [track_append TRACK_VIS].
          destruct (@deque_append_last _ (TRACK_VIS st) (s_vis s)) as [pre ->].
          - destruct Hal as (_ & _ & _ & _ & ->). unfold MAX_POINTS. lia.
          - apply in_or_app. right. now left. }
        destruct (render_returns rt w s name Hal' Hh Hvis) as (out & Hout & _).
        congruence.
      * intros [= <- <-]. split; [| now left].
        destruct (country_lookup_cases rt (coordinates w (s_lat s) (s_lon s)))
          as [[_ Hl] | [_ (name & Hl)]]; rewrite Hl in Hgeo.
        -- injection Hgeo as <-. exact I.
        -- discriminate.
    + intros [= <- <-]. split; [| now left]. eapply read_sample_raise; eassumption.
  - intros [= <- <-]. split; [exact I | now left].
  - intros [= <- <-]. split; [| now left].
    eapply get_iss_telemetry_raise; eassumption.
Qed.

Lemma tick_raise_effects_witness :
  tick_exception (KeyError "latitude") /\
  tick_exception TypeError /\
  (track_append demo_state 51.5 (-0.125) (PList []) = demo_state \/
   poisoned (track_append demo_state 51.5 (-0.125) (PList []))).
Proof.
  assert (Hal : aligned demo_state) by (repeat split).
  assert (Hplain : plain_track demo_state) by (repeat constructor).
  assert (Hrec1 : forall df v,
             get_iss_telemetry
               (telemetry (demo_world record_without_latitude "US"))
             = Ret (Some df) ->
             cell df "visibility" = Ret v -> plain_cell v = true).
  { intros df v Hdf Hv. injection Hdf as <-. now injection Hv as <-. }
  assert (Hrec2 : forall df v,
             get_iss_telemetry
               (telemetry (demo_world (demo_telemetry_with (PList [])) "US"))
             = Ret (Some df) ->
             cell df "visibility" = Ret v -> plain_cell v = true).
  { intros df v Hdf Hv. injection Hdf as <-. now injection Hv as <-. }
  split; [| split].
  - apply (@tick_raise_effects demo_runtime
             (demo_world record_without_latitude "US") 0 demo_store
             demo_state demo_state (KeyError "latitude") Hal Hplain Hrec1).
    reflexivity.
  - apply (@tick_raise_effects demo_runtime
             (demo_world (demo_telemetry_with (PList [])) "US") 0 demo_store
             demo_state (track_append demo_state 51.5 (-0.125) (PList []))
             TypeError Hal Hplain Hrec2).
    reflexivity.
  - destruct (@tick_raise_effects demo_runtime
                (demo_world (demo_telemetry_with (PList [])) "US") 0 demo_store
                demo_state (track_append demo_state 51.5 (-0.125) (PList []))
                TypeError Hal Hplain Hrec2 eq_refl)
      as [_ [Hsame | (_ & s & _ & Hp)]].
    + now left.
    + now right.
Defined.

(** ** The buffer along a run of ticks *)

(** X10. After any run of ticks from the loaded module, whatever the
    network answered and whichever ticks raised, the three deques hold
    equally many items, at most 1080, so the frame built from them never
    raises the ValueError of columns of different lengths and has one row
    per buffered sample. *)
Theorem run_ticks_frame (rt : runtime)
        (ticks : list (world * Z * track_columns)) :
  List.length (items (TRACK_LAT (run_ticks rt ticks initial_state)))
  = List.length (items (TRACK_VIS (run_ticks rt ticks initial_state))) /\
  List.length (items (TRACK_LON (run_ticks rt ticks initial_state)))
  = List.length (items (TRACK_VIS (run_ticks rt ticks initial_state))) /\
  List.length (items (TRACK_VIS (run_ticks rt ticks initial_state)))
  <= MAX_POINTS /\
  track_frame (snapshot (run_ticks rt ticks initial_state))
  = Ret (track_rows (run_ticks rt ticks initial_state)) /\
  List.length (track_rows (run_ticks rt ticks initial_state))
  = List.length (items (TRACK_VIS (run_ticks rt ticks initial_state))).
Proof.
  destruct (run_ticks_invariant rt ticks) as [Hal Hb].
  pose proof Hal as (H1 & H2 & _).
  split; [exact H1 |]. split; [exact H2 |]. split; [exact Hb |].
  split; [now apply track_frame_aligned |].
  rewrite <- (proj1 (track_rows_columns Hal)). now rewrite length_map.
Qed.

Lemma track_rows_append (st : state) (lat lon : float) (vis : pyval) :
  aligned st -> List.length (items (TRACK_VIS st)) <= MAX_POINTS ->
  track_rows (track_append st lat lon vis)
  = lastn MAX_POINTS (track_rows st ++ [mkRow lat lon vis]).
Proof.
  intros Hal Hb. destruct (track_rows_columns Hal) as (Hv & Hla & Hlo).
  destruct Hal as (H1 & H2 & M1 & M2 & M3).
  unfold track_rows at 1. unfold snapshot, track_append.
  cbn [TRACK_LAT TRACK_LON TRACK_VIS].
  rewrite !deque_append_items by lia. rewrite M1, M2, M3.
  rewrite <- Hv, <- Hla, <- Hlo.
  change [lat] with (map r_lat [mkRow lat lon vis]).
  change [lon] with (map r_lon [mkRow lat lon vis]).
  change [vis] with (map r_vis [mkRow lat lon vis]).
  rewrite <- !map_app, !lastn_map. apply rows_of_columns.
Qed.

(** X11. A tick that returns hands back as store value the buffer after
    the append: the samples that were in the buffer followed by the
    sample of the tick, cut to the last 1080; its three lists have the
    same length, the old length plus one but no more than 1080. *)
Theorem returned_store_is_history (rt : runtime) (w : world) (n_intervals : Z)
        (td : track_columns) (st : state) (df : DataFrame) (s : sample)
        (country_name country_color : string) :
  aligned st -> List.length (items (TRACK_VIS st)) <= MAX_POINTS ->
  hashable_track st ->
  get_iss_telemetry (telemetry w) = Ret (Some df) ->
  read_sample rt df = Ret s ->
  country_lookup rt (coordinates w (s_lat s) (s_lon s))
  = Ret (country_name, country_color) ->
  hashable (s_vis s) = true ->
  exists out,
    fst (update_map rt w n_intervals td st) = Ret out /\
    rows_of (track_store out)
    = lastn MAX_POINTS (track_rows st ++ [row_of_sample s]) /\
    List.length (col_lat (track_store out))
    = List.length (col_vis (track_store out)) /\
    List.length (col_lon (track_store out))
    = List.length (col_vis (track_store out)) /\
    List.length (col_vis (track_store out))
    = Nat.min MAX_POINTS (S (List.length (items (TRACK_VIS st)))).
Proof.
  intros Hal Hb Hh Hfetch Hread Hgeo Hvis.
  destruct (@update_map_returns rt w n_intervals td st df s country_name
              country_color Hal Hh Hfetch Hread Hgeo Hvis)
    as (out & Hrun & _ & Hstore).
  exists out. split; [now rewrite Hrun |].
  pose proof (aligned_track_append (s_lat s) (s_lon s) (s_vis s) Hal)
    as (H1 & H2 & _).
  rewrite Hstore. fold (track_rows (track_append st (s_lat s) (s_lon s) (s_vis s))).
  split; [now apply track_rows_append |].
  cbn [snapshot col_lat col_lon col_vis].
  split; [exact H1 |]. split; [exact H2 |].
  cbn [track_append TRACK_VIS]. rewrite deque_append_items.
  - rewrite lastn_length, length_app. cbn [List.length].
    destruct Hal as (_ & _ & _ & _ & ->). f_equal. lia.
  - destruct Hal as (_ & _ & _ & _ & ->). exact Hb.
Qed.

Lemma returned_store_is_history_witness :
  exists out,
    fst (update_map demo_runtime (demo_world demo_telemetry "US") 0
                    demo_store demo_state) = Ret out /\
    rows_of (track_store out)
    = demo_rows ++ [mkRow 51.5 (-0.125) (PStr "daylight")] /\
    List.length (col_vis (track_store out)) = 5.
Proof.
  edestruct (@returned_store_is_history demo_runtime
               (demo_world demo_telemetry "US") 0 demo_store demo_state)
    as (out & Hrun & Hrows & _ & _ & Hlen).
  - repeat split.
  - cbn. unfold MAX_POINTS. lia.
  - repeat constructor.
  - reflexivity.
  - reflexivity.
  - reflexivity.
  - reflexivity.
  - exists out. split; [exact Hrun |]. split; [exact Hrows | exact Hlen].
Defined.

(** ** The annotations of the figure *)

Lemma render_layout (rt : runtime) (w : world) (s : sample)
      (country_name : string) (st : state) (out : outputs) :
  render rt w s country_name st = Ret out ->
  exists legend,
    legend_html = Ret legend /\
    fig_layout (iss_map out)
    = Some (mkLayout
              [("data:image/png;base64," ++ encoded_image rt)%string]
              [ mkAnnotation "<b>Currently over:</b>" 24 "#00ff7f";
                mkAnnotation ("<b>" ++ country_name ++ "</b>")%string 30 "red";
                mkAnnotation ("<b>" ++ utcnow w ++ "</b>")%string 22 "red";
                mkAnnotation legend 20 "springgreen" ]).
Proof.
  unfold render. intros H.
  destruct (track_frame (snapshot st)) as [track_df |]; [| discriminate].
  cbn [bind] in H.
  destruct (add_segment_traces Figure (split_segments track_df))
    as [lines |]; [| discriminate].
  cbn [bind] in H.
  destruct (dict_get color_map (s_vis s) "#FFFFFF") as [colour |];
    [| discriminate].
  cbn [bind] in H.
  destruct legend_html as [legend |]; [| discriminate].
  cbn [bind] in H. injection H as <-.
  exists legend. split; reflexivity.
Qed.

(** X12. A failure of the coordinates request does not stop the tick:
    whenever the answer is none of those that make the lookup raise, the
    tick appends the sample and returns a figure whose four annotations
    are the caption, the label of the lookup, the UTC time and the legend,
    over the start-up image; and when the request itself failed, the
    label shown is Ocean. *)
Theorem geocode_failure_still_renders (rt : runtime) (w : world)
        (n_intervals : Z) (td : track_columns) (st : state) (df : DataFrame)
        (s : sample) :
  aligned st -> hashable_track st ->
  get_iss_telemetry (telemetry w) = Ret (Some df) ->
  read_sample rt df = Ret s ->
  hashable (s_vis s) = true ->
  malformed_geocode (coordinates w (s_lat s) (s_lon s)) = false ->
  exists out name legend,
    update_map rt w n_intervals td st
    = (Ret out, track_append st (s_lat s) (s_lon s) (s_vis s)) /\
    country_lookup rt (coordinates w (s_lat s) (s_lon s)) = Ret (name, "red") /\
    legend_html = Ret legend /\
    option_map (fun l => map a_text (annotations l)) (fig_layout (iss_map out))
    = Some ["<b>Currently over:</b>"; ("<b>" ++ name ++ "</b>")%string;
            ("<b>" ++ utcnow w ++ "</b>")%string; legend] /\
    option_map images (fig_layout (iss_map out))
    = Some [("data:image/png;base64," ++ encoded_image rt)%string] /\
    ((exists e, coordinates w (s_lat s) (s_lon s) = RequestFails e) ->
     name = "Ocean").
Proof.
  intros Hal Hh Hfetch Hread Hvis Hgeo.
  destruct (country_lookup_cases rt (coordinates w (s_lat s) (s_lon s)))
    as [[Hm _] | [_ (name & Hname)]]; [congruence |].
  destruct (@update_map_returns rt w n_intervals td st df s name "red"
              Hal Hh Hfetch Hread Hname Hvis) as (out & Hrun & _).
  assert (Hrender : render rt w s name
                      (track_append st (s_lat s) (s_lon s) (s_vis s)) = Ret out).
  { unfold update_map in Hrun. rewrite Hfetch, Hread, Hname in Hrun.
    now injection Hrun. }
  destruct (render_layout _ _ _ _ _ Hrender) as (legend & Hlegend & Hlayout).
  exists out, name, legend.
  split; [exact Hrun |]. split; [exact Hname |]. split; [exact Hlegend |].
  rewrite Hlayout. split; [reflexivity |]. split; [reflexivity |].
  intros [e He]. rewrite He in Hname. destruct e; now injection Hname.
Qed.

Lemma geocode_failure_still_renders_witness :
  exists out legend,
    update_map demo_runtime
               (mkWorld (demo_record demo_telemetry)
                        (fun _ _ => RequestFails ReqTimeout)
                        "2025-12-24 23:59:59 UTC")
               0 demo_store demo_state
    = (Ret out, track_append demo_state 51.5 (-0.125) (PStr "daylight")) /\
    option_map (fun l => map a_text (annotations l)) (fig_layout (iss_map out))
    = Some ["<b>Currently over:</b>"; "<b>Ocean</b>";
            "<b>2025-12-24 23:59:59 UTC</b>"; legend].
Proof.
  edestruct (@geocode_failure_still_renders demo_runtime
               (mkWorld (demo_record demo_telemetry)
                        (fun _ _ => RequestFails ReqTimeout)
                        "2025-12-24 23:59:59 UTC")
               0 demo_store demo_state)
    as (out & name & legend & Hrun & _ & _ & Htext & _ & Hname).
  - repeat split.
  - repeat constructor.
  - reflexivity.
  - reflexivity.
  - reflexivity.
  - reflexivity.
  - exists out, legend. split; [exact Hrun |].
    rewrite Htext, Hname; [reflexivity |].
    now exists ReqTimeout.
Defined.

(** ** The colour of the current position *)

Lemma lastn_snoc_last {A} (n : nat) (l : list A) (x : A) :
  0 < n -> exists pre, lastn n (l ++ [x]) = pre ++ [x].
Proof.
  intros Hn. unfold lastn. rewrite length_app. cbn [List.length].
  exists (skipn (List.length l + 1 - n) l).
  rewrite skipn_app.
  replace (List.length l + 1 - n - List.length l) with 0 by lia.
  reflexivity.
Qed.

(** The last segment ends with the last sample of the frame. *)
Lemma split_segments_last (rows : list row) (r : row) :
  exists segs seg pre,
    split_segments (rows ++ [r]) = segs ++ [seg] /\ seg = pre ++ [r].
Proof.
  pose proof (split_segments_concat (rows ++ [r])) as Hcat.
  pose proof (split_segments_nonempty (rows ++ [r])) as Hne.
  destruct (split_segments (rows ++ [r])) as [| a l].
  - cbn in Hcat. now destruct rows.
  - destruct (@exists_last _ (a :: l)) as (ss & s0 & Hl); [discriminate |].
    rewrite Hl in *. clear Hl a l.
    apply Forall_app in Hne. destruct Hne as [_ Hs0].
    inversion Hs0 as [| ? ? Hs0ne _]; subst.
    destruct (exists_last Hs0ne) as (pre & z & ->).
    rewrite concat_app in Hcat. cbn [List.concat] in Hcat.
    rewrite app_nil_r, app_assoc in Hcat.
    apply app_inj_tail in Hcat. destruct Hcat as [_ ->].
    now exists ss, (pre ++ [r]), pre.
Qed.

(** X13. The marker of the current position follows the track: when all
    visibilities are strings and that of the current sample has a style,
    the last line of the figure is the line of the segment ending at the
    current sample, and the inset marker drawn after it has that line's
    colour. *)
Theorem inset_colour_matches_last_line (rt : runtime) (w : world)
        (n_intervals : Z) (td : track_columns) (st : state) (df : DataFrame)
        (s : sample) (country_name country_color v c : string) :
  aligned st -> List.length (items (TRACK_VIS st)) <= MAX_POINTS ->
  Forall (fun x => is_str x = true) (items (TRACK_VIS st)) ->
  get_iss_telemetry (telemetry w) = Ret (Some df) ->
  read_sample rt df = Ret s ->
  country_lookup rt (coordinates w (s_lat s) (s_lon s))
  = Ret (country_name, country_color) ->
  s_vis s = PStr v -> assoc v color_map = Some c ->
  exists out earlier seg pre,
    fst (update_map rt w n_intervals td st) = Ret out /\
    data (iss_map out)
    = earlier ++ [line_trace seg c; main_marker (s_lat s) (s_lon s);
                  inset_marker (s_lat s) (s_lon s) c] /\
    seg = pre ++ [row_of_sample s].
Proof.
  intros Hal Hb Hstr Hfetch Hread Hgeo Hv Hc.
  assert (Hvis : hashable (s_vis s) = true) by now rewrite Hv.
  assert (Hh : hashable_track st).
  { unfold hashable_track. apply Forall_forall. intros x Hx.
    apply is_str_hashable. rewrite Forall_forall in Hstr. now apply Hstr. }
  destruct (@update_map_returns rt w n_intervals td st df s country_name
              country_color Hal Hh Hfetch Hread Hgeo Hvis)
    as (out & Hrun & Hdata & _).
  pose proof (aligned_track_append (s_lat s) (s_lon s) (s_vis s) Hal) as Hal'.
  assert (Hrows' : str_rows (track_rows
                     (track_append st (s_lat s) (s_lon s) (s_vis s)))).
  { unfold str_rows. apply Forall_forall. intros r Hr.
    apply (in_map r_vis) in Hr.
    rewrite (proj1 (track_rows_columns Hal')) in Hr.
    cbn [track_append TRACK_VIS] in Hr. apply deque_append_In in Hr.
    destruct Hr as [Hr | ->]; [| now rewrite Hv].
    rewrite Forall_forall in Hstr. now apply Hstr. }
  destruct (split_segments_runs Hrows') as [Hhom _].
  rewrite (track_rows_append (s_lat s) (s_lon s) (s_vis s) Hal Hb)
    in Hdata, Hhom.
  destruct (@lastn_snoc_last _ MAX_POINTS (track_rows st)
              (mkRow (s_lat s) (s_lon s) (s_vis s))) as [rows Hlast];
    [unfold MAX_POINTS; lia |].
  rewrite Hlast in Hdata, Hhom.
  destruct (split_segments_last rows (mkRow (s_lat s) (s_lon s) (s_vis s)))
    as (segs & seg & pre & Hsegs & Hseg).
  rewrite Hsegs in Hdata, Hhom.
  apply Forall_app in Hhom. destruct Hhom as [_ Hseghom].
  inversion Hseghom as [| ? ? Hhomseg _]; subst seg.
  assert (Hlayer : layer (pre ++ [mkRow (s_lat s) (s_lon s) (s_vis s)])
                   = [line_trace
                        (pre ++ [mkRow (s_lat s) (s_lon s) (s_vis s)]) c]).
  { destruct (pre ++ [mkRow (s_lat s) (s_lon s) (s_vis s)])
      as [| r0 rest] eqn:Hr0; [now destruct pre |].
    cbn [layer].
    assert (Hxv : r_vis r0 = PStr v).
    { rewrite <- Hv.
      change (s_vis s) with (r_vis (mkRow (s_lat s) (s_lon s) (s_vis s))).
      apply Hhomseg; [now left |].
      rewrite <- Hr0. apply in_or_app. right. now left. }
    now rewrite Hxv, dict_find_str, Hc. }
  exists out, (line_layers segs),
    (pre ++ [mkRow (s_lat s) (s_lon s) (s_vis s)]), pre.
  split; [now rewrite Hrun |]. split; [| reflexivity].
  rewrite Hdata. unfold line_layers. rewrite flat_map_app. cbn [flat_map].
  rewrite Hlayer, app_nil_r. unfold inset_color.
  rewrite Hv, dict_find_str, Hc. now rewrite <- app_assoc.
Qed.

Lemma inset_colour_matches_last_line_witness :
  exists out earlier seg pre,
    fst (update_map demo_runtime
                    (demo_world (demo_telemetry_with (PStr "visible")) "US")
                    0 demo_store demo_state) = Ret out /\
    data (iss_map out)
    = earlier ++ [line_trace seg "#FFFF00"; main_marker 51.5 (-0.125);
                  inset_marker 51.5 (-0.125) "#FFFF00"] /\
    seg = pre ++ [mkRow 51.5 (-0.125) (PStr "visible")].
Proof.
  apply (@inset_colour_matches_last_line demo_runtime
           (demo_world (demo_telemetry_with (PStr "visible")) "US") 0
           demo_store demo_state
           (drop dropped_columns
              (DataFrame_of_record
                 (PDict (demo_telemetry_with (PStr "visible")))))
           (mkSample 51.5 (-0.125) 420.25 27580 (PStr "visible"))
           "United States" "red" "visible" "#FFFF00").
  - repeat split.
  - cbn. unfold MAX_POINTS. lia.
  - repeat constructor.
  - reflexivity.
  - reflexivity.
  - reflexivity.
  - reflexivity.
  - reflexivity.
Defined.
